(** * A Cognito token authorizer: [src/authorizer.py]

    The file has two parts.  [validate_token] checks a JSON Web Token
    against the key set published by a Cognito user pool; the class
    [AuthPolicy] accumulates allowed and denied API Gateway methods and
    renders them as a policy document.  [lambda_handler] ties both
    together.

    Python values are embedded as follows.
    - [str] and [bytes] are Rocq strings; the case mappings [lower] and
      [upper] act on the ASCII letters, which are the only letters of the
      literals the code compares against.
    - Numbers are rationals: Python compares an [int] with a [float]
      exactly, so [Q] with its order is the comparison the interpreter
      performs on finite values.
    - A [dict] is an association list in insertion order.
    - A raised exception is the left summand of a result; code that
      calls the outside world runs in a small state and exception monad
      whose state is the list of calls made so far.
    - The calls of [print] write to the log stream and decide nothing;
      they are left out. *)

From Stdlib Require Import String Ascii List Bool Arith ZArith QArith Lia.
From Stdlib Require Import Permutation.
Import ListNotations.
Open Scope string_scope.
Open Scope list_scope.

Set Implicit Arguments.

(** ** Python values *)

(** What [json.loads] and the token decoder return. *)
#[warnings="-register-all"]
Inductive json : Type :=
| JNull
| JBool (b : bool)
| JNum (q : Q)
| JStr (s : string)
| JArr (items : list json)
| JObj (members : list (string * json)).

Definition dict (V : Type) : Type := list (string * V).

Fixpoint get {V : Type} (d : dict V) (k : string) : option V :=
  match d with
  | [] => None
  | (k', v) :: rest => if String.eqb k' k then Some v else get rest k
  end.

(** Exceptions.  [LibraryError] stands for whatever an imported package
    (jose, requests, json, base64) raises: none of them can raise
    [InvalidTokenError], a class of this file. *)
Inductive exn : Type :=
| InvalidTokenError (msg : string)
| NameError (msg : string)
| KeyError (key : string)
| TypeError
| IndexError
| LibraryError (cls : string).

Definition result (A : Type) : Type := (exn + A)%type.

(** [d[k]] *)
Definition getitem {V : Type} (d : dict V) (k : string) : result V :=
  match get d k with
  | Some v => inr v
  | None => inl (KeyError k)
  end.

(** ** Strings *)

Definition is_upper (c : ascii) : bool :=
  let n := nat_of_ascii c in (65 <=? n)%nat && (n <=? 90)%nat.

Definition is_lower (c : ascii) : bool :=
  let n := nat_of_ascii c in (97 <=? n)%nat && (n <=? 122)%nat.

Definition is_digit (c : ascii) : bool :=
  let n := nat_of_ascii c in (48 <=? n)%nat && (n <=? 57)%nat.

Definition lower_char (c : ascii) : ascii :=
  if is_upper c then ascii_of_nat (nat_of_ascii c + 32) else c.

Definition upper_char (c : ascii) : ascii :=
  if is_lower c then ascii_of_nat (nat_of_ascii c - 32) else c.

Fixpoint map_string (f : ascii -> ascii) (s : string) : string :=
  match s with
  | EmptyString => EmptyString
  | String c rest => String (f c) (map_string f rest)
  end.

(** [s.lower()] and [s.upper()] *)
Definition lower : string -> string := map_string lower_char.
Definition upper : string -> string := map_string upper_char.

(** [s[:1]] and [s[1:]] *)
Definition first1 (s : string) : string :=
  match s with
  | EmptyString => EmptyString
  | String c _ => String c EmptyString
  end.

Definition from1 (s : string) : string :=
  match s with
  | EmptyString => EmptyString
  | String _ rest => rest
  end.

Definition newline : ascii := ascii_of_nat 10.

(** [s.rsplit('.', 1)]: the text before the last dot and the text after
    it, or the whole string alone when it has no dot. *)
Fixpoint rsplit_dot (s : string) : list string :=
  match s with
  | EmptyString => [EmptyString]
  | String c rest =>
      match rsplit_dot rest with
      | [tail] =>
          if Ascii.eqb c "." then [EmptyString; tail] else [String c tail]
      | head :: more => String c head :: more
      | [] => []
      end
  end.

(** [l[i]] on the list a split returns *)
Definition index (l : list string) (i : nat) : result string :=
  match nth_error l i with
  | Some s => inr s
  | None => inl IndexError
  end.

(** ** class HttpVerb *)

Module HttpVerb.
Definition GET := "GET".
Definition POST := "POST".
Definition PUT := "PUT".
Definition PATCH := "PATCH".
Definition HEAD := "HEAD".
Definition DELETE := "DELETE".
Definition OPTIONS := "OPTIONS".
Definition ALL := "*".

(** The names the class body binds, in the order it binds them. *)
Definition names : list string :=
  ["GET"; "POST"; "PUT"; "PATCH"; "HEAD"; "DELETE"; "OPTIONS"; "ALL"].

(** The values bound to those names. *)
Definition values : list string :=
  [GET; POST; PUT; PATCH; HEAD; DELETE; OPTIONS; ALL].
End HttpVerb.

Definition mem (s : string) (l : list string) : bool :=
  existsb (String.eqb s) l.

(** [hasattr(HttpVerb, name)].  The lookup finds the names of the class
    body and, after them, the names every class has through [object] and
    [type] ([__doc__], [__init__], [mro], ...).  The second set belongs
    to the interpreter; it is the argument [type_attr]. *)
Definition hasattr_HttpVerb (type_attr : string -> bool) (name : string)
  : bool :=
  mem name HttpVerb.names || type_attr name.

(** ** class AuthPolicy *)

(** The value of [conditions]: [None], or a sized container of entries
    ([[]] is what [allowMethod] and [denyMethod] pass). *)
Definition conditions : Type := option (list (string * json)).

(** [conditions is None or len(conditions) == 0] *)
Definition unconditioned (c : conditions) : bool :=
  match c with
  | None => true
  | Some entries => (length entries =? 0)%nat
  end.

(** An entry of [allowMethods] or [denyMethods]. *)
Record method : Type := Method {
  resourceArn : string;
  method_conditions : conditions
}.

(** A statement of the policy document.  [Condition] is [None] when the
    dictionary has no such key, and [Some c] when the key holds [c]. *)
Record statement : Type := Statement {
  Action : string;
  Effect : string;
  Resource : list string;
  Condition : option conditions
}.

Record policyDocument : Type := PolicyDocument {
  Version : string;
  Statements : list statement
}.

(** What [build] returns; [lambda_handler] adds the key [context]. *)
Record response : Type := Response {
  response_principalId : string;
  response_policyDocument : policyDocument;
  context : option (dict exn)
}.

(** [pathRegex], the pattern [^[/.a-zA-Z0-9-\*]+$]. *)
Definition pathRegex : string := "^[/.a-zA-Z0-9-\*]+$".

(** The character class of [pathRegex]. *)
Definition path_char (c : ascii) : bool :=
  Ascii.eqb c "/" || Ascii.eqb c "." || is_lower c || is_upper c
  || is_digit c || Ascii.eqb c "-" || Ascii.eqb c "*".

(** [re.compile(pathRegex).match(s)]: one or more characters of the
    class, up to the end of the string; [$] also matches just before a
    newline that ends the string.  [seen] tells whether a character of
    the class has been consumed. *)
Fixpoint class_plus_end (seen : bool) (s : string) : bool :=
  match s with
  | EmptyString => seen
  | String c rest =>
      if path_char c then class_plus_end true rest
      else seen && Ascii.eqb c newline && String.eqb rest EmptyString
  end.

Definition pathRegex_match (s : string) : bool := class_plus_end false s.

Module AuthPolicy.

(** The attributes of an instance.  [pathRegex] is never assigned and
    stays the class attribute above. *)
Record t : Type := Make {
  awsAccountId : string;
  principalId : string;
  version : string;
  allowMethods : list method;
  denyMethods : list method;
  restApiId : string;
  region : string;
  stage : string
}.

(** [AuthPolicy(principal, awsAccountId)]: the two lists are fresh, the
    other attributes are the class defaults. *)
Definition __init__ (principal awsAccountId : string) : t :=
  {| awsAccountId := awsAccountId;
     principalId := principal;
     version := "2012-10-17";
     allowMethods := [];
     denyMethods := [];
     restApiId := "*";
     region := "*";
     stage := "*" |}.

Definition set_region (self : t) (v : string) : t :=
  {| awsAccountId := awsAccountId self; principalId := principalId self;
     version := version self; allowMethods := allowMethods self;
     denyMethods := denyMethods self; restApiId := restApiId self;
     region := v; stage := stage self |}.

Definition set_restApiId (self : t) (v : string) : t :=
  {| awsAccountId := awsAccountId self; principalId := principalId self;
     version := version self; allowMethods := allowMethods self;
     denyMethods := denyMethods self; restApiId := v;
     region := region self; stage := stage self |}.

Definition set_stage (self : t) (v : string) : t :=
  {| awsAccountId := awsAccountId self; principalId := principalId self;
     version := version self; allowMethods := allowMethods self;
     denyMethods := denyMethods self; restApiId := restApiId self;
     region := region self; stage := v |}.

(** [self.allowMethods.append(m)] and [self.denyMethods.append(m)] *)
Definition append_allow (self : t) (m : method) : t :=
  {| awsAccountId := awsAccountId self; principalId := principalId self;
     version := version self; allowMethods := allowMethods self ++ [m];
     denyMethods := denyMethods self; restApiId := restApiId self;
     region := region self; stage := stage self |}.

Definition append_deny (self : t) (m : method) : t :=
  {| awsAccountId := awsAccountId self; principalId := principalId self;
     version := version self; allowMethods := allowMethods self;
     denyMethods := denyMethods self ++ [m]; restApiId := restApiId self;
     region := region self; stage := stage self |}.

(** The format string of [_addMethod] applied to its six arguments. *)
Definition format_arn (region account api stage verb resource : string)
  : string :=
  "arn:aws:execute-api:" ++ region ++ ":" ++ account ++ ":" ++ api
    ++ "/" ++ stage ++ "/" ++ verb ++ "/" ++ resource.

Section Methods.

Variable type_attr : string -> bool.

(** [verb != '*' and not hasattr(HttpVerb, verb)] *)
Definition bad_verb (verb : string) : bool :=
  negb (String.eqb verb "*") && negb (hasattr_HttpVerb type_attr verb).

(** Both [raise] statements come before the first assignment, so a
    call either raises and leaves [self] as it was, or returns the
    updated [self]. *)
Definition _addMethod (self : t) (effect verb resource : string)
    (conds : conditions) : result t :=
  if bad_verb verb then
    inl (NameError ("Invalid HTTP verb " ++ verb
                      ++ ". Allowed verbs in HttpVerb class"))
  else if negb (pathRegex_match resource) then
    inl (NameError ("Invalid resource path: " ++ resource
                      ++ ". Path should match " ++ pathRegex))
  else
    let resource :=
      if String.eqb (first1 resource) "/" then from1 resource
      else resource in
    let resourceArn :=
      format_arn (region self) (awsAccountId self) (restApiId self)
                 (stage self) verb resource in
    if String.eqb (lower effect) "allow" then
      inr (append_allow self (Method resourceArn conds))
    else if String.eqb (lower effect) "deny" then
      inr (append_deny self (Method resourceArn conds))
    else inr self.

Definition allowAllMethods (self : t) : result t :=
  _addMethod self "Allow" HttpVerb.ALL "*" (Some []).

Definition denyAllMethods (self : t) : result t :=
  _addMethod self "Deny" HttpVerb.ALL "*" (Some []).

Definition allowMethod (self : t) (verb resource : string) : result t :=
  _addMethod self "Allow" verb resource (Some []).

Definition denyMethod (self : t) (verb resource : string) : result t :=
  _addMethod self "Deny" verb resource (Some []).

Definition allowMethodWithConditions (self : t) (verb resource : string)
    (conds : conditions) : result t :=
  _addMethod self "Allow" verb resource conds.

Definition denyMethodWithConditions (self : t) (verb resource : string)
    (conds : conditions) : result t :=
  _addMethod self "Deny" verb resource conds.

End Methods.

(** [build] passes the literals [Allow] and [Deny].  On an effect with
    letters outside ASCII the case mapping of Python is not the one of
    [upper] and [lower]; nothing below is stated of such an effect. *)
Definition _getEmptyStatement (effect : string) : statement :=
  {| Action := "execute-api:Invoke";
     Effect := upper (first1 effect) ++ lower (from1 effect);
     Resource := [];
     Condition := None |}.

(** [statement['Resource'].append(arn)] *)
Definition append_resource (st : statement) (arn : string) : statement :=
  {| Action := Action st; Effect := Effect st;
     Resource := Resource st ++ [arn]; Condition := Condition st |}.

(** [statement['Condition'] = conds] *)
Definition set_condition (st : statement) (conds : conditions)
  : statement :=
  {| Action := Action st; Effect := Effect st;
     Resource := Resource st; Condition := Some conds |}.

(** The [for] loop of [_getStatementForEffect]: [st] is the dictionary
    [statement], [sts] the list [statements]. *)
Fixpoint statement_loop (effect : string) (methods : list method)
    (st : statement) (sts : list statement) : statement * list statement :=
  match methods with
  | [] => (st, sts)
  | curMethod :: rest =>
      if unconditioned (method_conditions curMethod) then
        statement_loop effect rest
          (append_resource st (resourceArn curMethod)) sts
      else
        let conditionalStatement := _getEmptyStatement effect in
        let conditionalStatement :=
          append_resource conditionalStatement (resourceArn curMethod) in
        let conditionalStatement :=
          set_condition conditionalStatement (method_conditions curMethod) in
        statement_loop effect rest st (sts ++ [conditionalStatement])
  end.

Definition _getStatementForEffect (effect : string)
    (methods : list method) : list statement :=
  if (0 <? length methods)%nat then
    let '(st, sts) :=
      statement_loop effect methods (_getEmptyStatement effect) [] in
    match Resource st with
    | [] => sts
    | _ :: _ => sts ++ [st]
    end
  else [].

(** The two lists are created by [__init__] and only ever appended
    to, so neither is [None] and the guard is the test of the two
    lengths. *)
Definition build (self : t) : result response :=
  if (length (allowMethods self) =? 0)%nat
     && (length (denyMethods self) =? 0)%nat then
    inl (NameError "No statements defined for the policy")
  else
    let Statement :=
      [] ++ _getStatementForEffect "Allow" (allowMethods self) in
    let Statement :=
      Statement ++ _getStatementForEffect "Deny" (denyMethods self) in
    inr {| response_principalId := principalId self;
           response_policyDocument :=
             {| Version := version self; Statements := Statement |};
           context := None |}.

End AuthPolicy.

(** ** More of Python: equality, subscripts, iteration *)

Definition bool_num (b : bool) : Q := if b then 1%Q else 0%Q.

(** [a == b] on decoded JSON.  [True] and [False] are the numbers 1 and
    0; two dictionaries are equal when they have as many keys and agree
    on each. *)
Fixpoint py_eq (a b : json) {struct a} : bool :=
  match a, b with
  | JNull, JNull => true
  | JBool x, JBool y => Bool.eqb x y
  | JBool x, JNum q => Qeq_bool (bool_num x) q
  | JNum q, JBool y => Qeq_bool q (bool_num y)
  | JNum p, JNum q => Qeq_bool p q
  | JStr s, JStr t => String.eqb s t
  | JArr l, JArr m =>
      (fix all2 (l m : list json) {struct l} : bool :=
         match l, m with
         | [], [] => true
         | x :: l', y :: m' => py_eq x y && all2 l' m'
         | _, _ => false
         end) l m
  | JObj o, JObj p =>
      (length o =? length p)%nat
      && (fix all (o : list (string * json)) {struct o} : bool :=
            match o with
            | [] => true
            | (k, v) :: o' =>
                match get p k with
                | Some w => py_eq v w
                | None => false
                end && all o'
            end) o
  | _, _ => false
  end.

(** [v[k]] with a string [k]: only a dictionary has string subscripts. *)
Definition subscript (v : json) (k : string) : result json :=
  match v with
  | JObj members => getitem members k
  | _ => inl TypeError
  end.

Fixpoint chars (s : string) : list json :=
  match s with
  | EmptyString => []
  | String c rest => JStr (String c EmptyString) :: chars rest
  end.

(** The values [for x in v] runs through: the items of a list, the keys
    of a dictionary, the characters of a string. *)
Definition iterate (v : json) : result (list json) :=
  match v with
  | JArr items => inr items
  | JObj members => inr (map (fun kv => JStr (fst kv)) members)
  | JStr s => inr (chars s)
  | _ => inl TypeError
  end.

(** [x > v] for a float [x]: defined against numbers only. *)
Definition float_gt (x : Q) (v : json) : result bool :=
  match v with
  | JNum q => inr (negb (Qle_bool x q))
  | JBool b => inr (negb (Qle_bool x (bool_num b)))
  | _ => inl TypeError
  end.

(** [v != s] for a string [s] *)
Definition ne_str (v : json) (s : string) : bool :=
  match v with
  | JStr t => negb (String.eqb t s)
  | _ => true
  end.

(** ** The outside world *)

(** The object [jwk.construct] returns. *)
Inductive Key : Type := KeyOf (material : json).

(** The calls that leave this file, as recorded in the log. *)
Inductive call : Type :=
| Call_get_unverified_headers (token : string)
| Call_requests_get (url : string)
| Call_json_loads (text : string)
| Call_jwk_construct (key : json)
| Call_base64url_decode (data : string)
| Call_verify (key : Key) (message signature : string)
| Call_get_unverified_claims (token : string)
| Call_time.

(** What those calls answer: a value, or on the left the class of the
    exception raised.  [requests_get] answers [response.text]. *)
Record World : Type := {
  get_unverified_headers : string -> string + dict json;
  requests_get : string -> string + string;
  json_loads : string -> string + json;
  jwk_construct : json -> string + Key;
  base64url_decode : string -> string + string;
  verify : Key -> string -> string -> string + bool;
  get_unverified_claims : string -> string + dict json;
  time_time : Q
}.

(** ** The monad: a state and an exception *)

Definition M (S A : Type) : Type := S -> result A * S.

Definition ret {S A : Type} (a : A) : M S A := fun s => (inr a, s).

Definition raise {S A : Type} (e : exn) : M S A := fun s => (inl e, s).

Definition bind {S A B : Type} (m : M S A) (k : A -> M S B) : M S B :=
  fun s =>
    match m s with
    | (inl e, s') => (inl e, s')
    | (inr a, s') => k a s'
    end.

Notation "x <- m ;; k" := (bind m (fun x => k))
  (at level 61, m at next level, right associativity).
Notation "m ;;; k" := (bind m (fun _ => k))
  (at level 61, right associativity).

(** A pure computation that may raise. *)
Definition lift {S A : Type} (r : result A) : M S A := fun s => (r, s).

(** A call to the outside: it is logged, then answers or raises. *)
Definition extern {A : Type} (c : call) (answer : string + A)
  : M (list call) A :=
  fun log =>
    (match answer with
     | inl cls => inl (LibraryError cls)
     | inr a => inr a
     end, log ++ [c]).

(** [try: body  except InvalidTokenError as e: handler(e)].  The handler
    starts in the state the body had reached when it raised. *)
Definition try_except_InvalidTokenError {S A : Type} (body : M S A)
    (handler : exn -> M S A) : M S A :=
  fun s =>
    match body s with
    | (inl (InvalidTokenError msg), s') => handler (InvalidTokenError msg) s'
    | other => other
    end.

(** ** validate_token *)

(** The [for] loop over the key set.  It does not stop at a match, so
    the last key with the header's [kid] is the one kept. *)
Fixpoint find_key (keys : list json) (headers : dict json)
    (target_key : option json) : result (option json) :=
  match keys with
  | [] => inr target_key
  | key :: rest =>
      match subscript key "kid" with
      | inl e => inl e
      | inr kid =>
          match getitem headers "kid" with
          | inl e => inl e
          | inr header_kid =>
              find_key rest headers
                (if py_eq kid header_kid then Some key else target_key)
          end
      end
  end.

Definition keys_url (region user_pool_id : string) : string :=
  "https://cognito-idp." ++ region ++ ".amazonaws.com/" ++ user_pool_id
    ++ "/.well-known/jwks.json".

Definition validate_token (w : World)
    (token region user_pool_id client_id user_agent : string)
  : M (list call) unit :=
  let keys_url := keys_url region user_pool_id in
  headers <- extern (Call_get_unverified_headers token)
                    (get_unverified_headers w token) ;;
  text <- extern (Call_requests_get keys_url) (requests_get w keys_url) ;;
  loaded <- extern (Call_json_loads text) (json_loads w text) ;;
  keys <- lift (subscript loaded "keys") ;;
  items <- lift (iterate keys) ;;
  target_key <- lift (find_key items headers None) ;;
  match target_key with
  | None => raise (InvalidTokenError "Invalid public key in headers.")
  | Some target_key =>
      public_key <- extern (Call_jwk_construct target_key)
                           (jwk_construct w target_key) ;;
      message <- lift (index (rsplit_dot token) 0) ;;
      signature <- lift (index (rsplit_dot token) 1) ;;
      decode_signature <- extern (Call_base64url_decode signature)
                                 (base64url_decode w signature) ;;
      verified <- extern (Call_verify public_key message decode_signature)
                         (verify w public_key message decode_signature) ;;
      if negb verified then
        raise (InvalidTokenError "Invalid token signature.")
      else
        claims <- extern (Call_get_unverified_claims token)
                         (get_unverified_claims w token) ;;
        now <- extern Call_time (inr (time_time w)) ;;
        exp <- lift (getitem claims "exp") ;;
        expired <- lift (float_gt now exp) ;;
        if expired then raise (InvalidTokenError "Token is expired.")
        else
          aud <- lift (getitem claims "aud") ;;
          if ne_str aud client_id then
            raise (InvalidTokenError "Invalid aud(Cognito Client ID).")
          else if negb (String.eqb user_agent "cognito-authorizer") then
            raise (InvalidTokenError "Invalid UserAgent.")
          else ret tt
  end.

(** ** lambda_handler *)

Definition Store : Type := (AuthPolicy.t * list call)%type.

(** A method of [policy] that mutates it. *)
Definition on_policy (f : AuthPolicy.t -> result AuthPolicy.t)
  : M Store unit :=
  fun s =>
    match f (fst s) with
    | inl e => (inl e, s)
    | inr p => (inr tt, (p, snd s))
    end.

(** A method of [policy] that reads it. *)
Definition of_policy {A : Type} (f : AuthPolicy.t -> result A)
  : M Store A :=
  fun s => (f (fst s), s).

(** A computation that only talks to the world. *)
Definition in_world {A : Type} (m : M (list call) A) : M Store A :=
  fun s => let '(r, log) := m (snd s) in (r, (fst s, log)).

(** The scope of the local object [policy]. *)
Definition with_policy {A : Type} (policy : AuthPolicy.t) (m : M Store A)
  : M (list call) A :=
  fun log => let '(r, s) := m (policy, log) in (r, snd s).

(** [response['context'] = {'message': e}] *)
Definition set_context (r : response) (e : exn) : response :=
  {| response_principalId := response_principalId r;
     response_policyDocument := response_policyDocument r;
     context := Some [("message", e)] |}.

Section Handler.

Variable type_attr : string -> bool.

(** [environ] is [os.environ]; [event] holds the two dictionaries the
    handler reads, [requestContext] and [headers]. *)
Definition lambda_handler (w : World) (environ : dict string)
    (event : dict (dict string)) : M (list call) response :=
  region <- lift (getitem environ "AWS_DEFAULT_REGION") ;;
  user_pool_id <- lift (getitem environ "USER_POOL_ID") ;;
  client_id <- lift (getitem environ "CLIENT_ID") ;;
  requestContext <- lift (getitem event "requestContext") ;;
  account_id <- lift (getitem requestContext "accountId") ;;
  requestContext <- lift (getitem event "requestContext") ;;
  api_id <- lift (getitem requestContext "apiId") ;;
  requestContext <- lift (getitem event "requestContext") ;;
  stage <- lift (getitem requestContext "stage") ;;
  let policy := AuthPolicy.__init__ "" account_id in
  let policy := AuthPolicy.set_region policy region in
  let policy := AuthPolicy.set_restApiId policy api_id in
  let policy := AuthPolicy.set_stage policy stage in
  with_policy policy
    (try_except_InvalidTokenError
       (headers <- lift (getitem event "headers") ;;
        token <- lift (getitem headers "Authorization") ;;
        headers <- lift (getitem event "headers") ;;
        user_agent <- lift (getitem headers "User-Agent") ;;
        in_world (validate_token w token region user_pool_id client_id
                                 user_agent) ;;;
        on_policy (AuthPolicy.allowAllMethods type_attr) ;;;
        response <- of_policy AuthPolicy.build ;;
        ret response)
       (fun e =>
          on_policy (AuthPolicy.denyAllMethods type_attr) ;;;
          response <- of_policy AuthPolicy.build ;;
          ret (set_context response e))).

End Handler.

(** ** What the statements are read against *)

(** A leading slash of a resource path, taken off once. *)
Definition strip_slash (path : string) : string :=
  match path with
  | String "/" rest => rest
  | _ => path
  end.

Definition conditioned (m : method) : bool :=
  negb (unconditioned (method_conditions m)).

Definition is_unconditioned (m : method) : bool :=
  unconditioned (method_conditions m).

(** The statement a grant with conditions gets for itself. *)
Definition standalone (effect : string) (m : method) : statement :=
  {| Action := "execute-api:Invoke";
     Effect := upper (first1 effect) ++ lower (from1 effect);
     Resource := [resourceArn m];
     Condition := Some (method_conditions m) |}.

(** The one statement that carries the resources of all the grants
    without conditions, when there is such a grant. *)
Definition merged (effect : string) (methods : list method)
  : list statement :=
  match filter is_unconditioned methods with
  | [] => []
  | m :: ms =>
      [ {| Action := "execute-api:Invoke";
           Effect := upper (first1 effect) ++ lower (from1 effect);
           Resource := map resourceArn (m :: ms);
           Condition := None |} ]
  end.

(** The order of statements the policy builder of the specification
    announces: for each effect the merged statement first, the
    statements of the conditioned grants after it. *)
Definition announced_order (allow deny : list method) : list statement :=
  merged "Allow" allow ++ map (standalone "Allow") (filter conditioned allow)
  ++ merged "Deny" deny ++ map (standalone "Deny") (filter conditioned deny).

(** The order [build] produces. *)
Definition built_order (allow deny : list method) : list statement :=
  map (standalone "Allow") (filter conditioned allow) ++ merged "Allow" allow
  ++ map (standalone "Deny") (filter conditioned deny) ++ merged "Deny" deny.

(** The verbs the specification enumerates: the values of [HttpVerb]. *)
Definition enumerated_verbs : list string :=
  ["GET"; "POST"; "PUT"; "PATCH"; "HEAD"; "DELETE"; "OPTIONS"; "*"].

(** The document of a policy with a single statement of [effect] over
    every verb and every resource. *)
Definition all_methods_response (effect region account api stage : string)
  : response :=
  {| response_principalId := "";
     response_policyDocument :=
       {| Version := "2012-10-17";
          Statements :=
            [ {| Action := "execute-api:Invoke";
                 Effect := effect;
                 Resource :=
                   [("arn:aws:execute-api:" ++ region ++ ":" ++ account ++ ":"
                      ++ api ++ "/" ++ stage ++ "/*/*")%string];
                 Condition := None |} ] |};
     context := None |}.

(** ** Sample inputs *)

(** The interpreter's share of [hasattr]: a class inherits, among others,
    these names. *)
Definition sample_type_attr (name : string) : bool :=
  mem name ["__class__"; "__doc__"; "__init__"; "__dict__"; "__module__";
            "__name__"; "mro"].

Definition sample_policy : AuthPolicy.t :=
  AuthPolicy.set_stage
    (AuthPolicy.set_restApiId
       (AuthPolicy.set_region (AuthPolicy.__init__ "" "111122223333")
                              "us-east-1")
       "abcd123")
    "prod".

Definition sample_condition : conditions :=
  Some [("IpAddress", JObj [("aws:SourceIp", JStr "203.0.113.0/24")])].

(** A policy with a conditioned grant recorded before an unconditioned
    one. *)
Definition mixed_policy : AuthPolicy.t :=
  AuthPolicy.append_allow
    (AuthPolicy.append_allow sample_policy
       (Method "arn:aws:execute-api:us-east-1:111122223333:abcd123/prod/GET/a"
               sample_condition))
    (Method "arn:aws:execute-api:us-east-1:111122223333:abcd123/prod/GET/b"
            (Some [])).

Fixpoint count_dots (s : string) : nat :=
  match s with
  | EmptyString => 0
  | String c rest => (if Ascii.eqb c "." then 1 else 0) + count_dots rest
  end.

Definition sample_headers : dict json :=
  [("kid", JStr "key-1"); ("alg", JStr "RS256")].

Definition sample_jwk : json :=
  JObj [("kid", JStr "key-1"); ("kty", JStr "RSA"); ("alg", JStr "RS256")].

Definition other_jwk : json :=
  JObj [("kid", JStr "key-0"); ("kty", JStr "RSA"); ("alg", JStr "RS256")].

Definition sample_claims (exp : Q) : dict json :=
  [("exp", JNum exp); ("aud", JStr "client-1")].

(** A world whose user pool publishes two keys and whose tokens are
    signed with the second.  The decoder refuses a token without its two
    dots the way jose does, with [JWTError]; [signature_ok] is the
    answer of the signature check, [exp] the expiry claim of every
    token and [now] the clock. *)
Definition sample_world (signature_ok : bool) (exp now : Q) : World :=
  {| get_unverified_headers := fun token =>
       if (count_dots token =? 2)%nat then inr sample_headers
       else inl "JWTError";
     requests_get := fun _ => inr "{...}";
     json_loads := fun _ => inr (JObj [("keys", JArr [other_jwk; sample_jwk])]);
     jwk_construct := fun key => inr (KeyOf key);
     base64url_decode := fun data => inr data;
     verify := fun _ _ _ => inr signature_ok;
     get_unverified_claims := fun _ => inr (sample_claims exp);
     time_time := now |}.

Definition sample_environ : dict string :=
  [("AWS_DEFAULT_REGION", "us-east-1"); ("USER_POOL_ID", "us-east-1_Pool");
   ("CLIENT_ID", "client-1")].

Definition sample_event (token : string) : dict (dict string) :=
  [("requestContext",
    [("accountId", "111122223333"); ("apiId", "abcd123"); ("stage", "prod")]);
   ("headers",
    [("Authorization", token); ("User-Agent", "cognito-authorizer")])].

(** ** Runs of the validator and of the handler *)

(** [validate_token] gets as far as the signature check, which answers
    [verified]; [calls] are the calls made on the way, the check
    included. *)
Inductive reaches_verify (w : World) (token region user_pool_id : string)
  : bool -> list call -> Prop :=
| Reaches_verify
    (headers : dict json) (text : string) (loaded keys : json)
    (items : list json) (target_key : json) (public_key : Key)
    (message signature decode_signature : string) (verified : bool) :
    get_unverified_headers w token = inr headers ->
    requests_get w (keys_url region user_pool_id) = inr text ->
    json_loads w text = inr loaded ->
    subscript loaded "keys" = inr keys ->
    iterate keys = inr items ->
    find_key items headers None = inr (Some target_key) ->
    jwk_construct w target_key = inr public_key ->
    rsplit_dot token = [message; signature] ->
    base64url_decode w signature = inr decode_signature ->
    verify w public_key message decode_signature = inr verified ->
    reaches_verify w token region user_pool_id verified
      [Call_get_unverified_headers token;
       Call_requests_get (keys_url region user_pool_id);
       Call_json_loads text;
       Call_jwk_construct target_key;
       Call_base64url_decode signature;
       Call_verify public_key message decode_signature].

(** The statements of [validate_token] below the signature check. *)
Definition claim_checks (w : World) (token client_id user_agent : string)
  : M (list call) unit :=
  claims <- extern (Call_get_unverified_claims token)
                   (get_unverified_claims w token) ;;
  now <- extern Call_time (inr (time_time w)) ;;
  exp <- lift (getitem claims "exp") ;;
  expired <- lift (float_gt now exp) ;;
  if expired then raise (InvalidTokenError "Token is expired.")
  else
    aud <- lift (getitem claims "aud") ;;
    if ne_str aud client_id then
      raise (InvalidTokenError "Invalid aud(Cognito Client ID).")
    else if negb (String.eqb user_agent "cognito-authorizer") then
      raise (InvalidTokenError "Invalid UserAgent.")
    else ret tt.

(** The calls in which the claims of a token are read or judged. *)
Definition inspects_claims (c : call) : bool :=
  match c with
  | Call_get_unverified_claims _ => true
  | Call_time => true
  | _ => false
  end.

(** The environment and the event hold everything the handler reads. *)
Inductive request (environ : dict string) (event : dict (dict string))
    (region user_pool_id client_id account_id api_id stage token
       user_agent : string) : Prop :=
| Request (requestContext headers : dict string) :
    get environ "AWS_DEFAULT_REGION" = Some region ->
    get environ "USER_POOL_ID" = Some user_pool_id ->
    get environ "CLIENT_ID" = Some client_id ->
    get event "requestContext" = Some requestContext ->
    get requestContext "accountId" = Some account_id ->
    get requestContext "apiId" = Some api_id ->
    get requestContext "stage" = Some stage ->
    get event "headers" = Some headers ->
    get headers "Authorization" = Some token ->
    get headers "User-Agent" = Some user_agent ->
    request environ event region user_pool_id client_id account_id api_id
            stage token user_agent.

(** The five reasons with which [validate_token] raises
    [InvalidTokenError]. *)
Definition reasons : list string :=
  ["Invalid public key in headers."; "Invalid token signature.";
   "Token is expired."; "Invalid aud(Cognito Client ID).";
   "Invalid UserAgent."].

(** ** Grants with and without a condition *)





(** ** More readings of the code *)

(** Every character of [s] is of the class of [pathRegex]. *)
Fixpoint all_path_chars (s : string) : bool :=
  match s with
  | EmptyString => true
  | String c rest => path_char c && all_path_chars rest
  end.

(** A statement as API Gateway expects it: the action of an invocation,
    one of the two effects, and a resource at least. *)
Definition well_formed (st : statement) : Prop :=
  Action st = "execute-api:Invoke"
  /\ (Effect st = "Allow" \/ Effect st = "Deny")
  /\ Resource st <> [].

(** [validate_token] finds nothing to object to: the signature verifies,
    the expiry is not before the clock, the audience is the client id
    and the user agent is the expected one. *)
Definition accepts (w : World)
    (token region user_pool_id client_id user_agent : string) : Prop :=
  exists (calls : list call) (claims : dict json) (exp : json),
    reaches_verify w token region user_pool_id true calls
    /\ get_unverified_claims w token = inr claims
    /\ get claims "exp" = Some exp
    /\ float_gt (time_time w) exp = inr false
    /\ get claims "aud" = Some (JStr client_id)
    /\ user_agent = "cognito-authorizer".

(** A key of the key set that carries a [kid] other than [wanted]. *)
Definition other_kid (wanted : json) (key : json) : Prop :=
  exists kid : json, subscript key "kid" = inr kid /\ py_eq kid wanted = false.

(** A key of the key set that carries a [kid]. *)
Definition has_kid (key : json) : Prop :=
  exists kid : json, subscript key "kid" = inr kid.

(** The lookups the handler makes before its [try] succeed. *)
Inductive request_context (environ : dict string) (event : dict (dict string))
    (region user_pool_id client_id account_id api_id stage : string)
  : Prop :=
| Request_context (requestContext : dict string) :
    get environ "AWS_DEFAULT_REGION" = Some region ->
    get environ "USER_POOL_ID" = Some user_pool_id ->
    get environ "CLIENT_ID" = Some client_id ->
    get event "requestContext" = Some requestContext ->
    get requestContext "accountId" = Some account_id ->
    get requestContext "apiId" = Some api_id ->
    get requestContext "stage" = Some stage ->
    request_context environ event region user_pool_id client_id account_id
                    api_id stage.

Definition is_requests_get (c : call) : bool :=
  match c with
  | Call_requests_get _ => true
  | _ => false
  end.

(** An event whose headers lack the token. *)
Definition event_without_token : dict (dict string) :=
  [("requestContext",
    [("accountId", "111122223333"); ("apiId", "abcd123"); ("stage", "prod")]);
   ("headers", [("User-Agent", "cognito-authorizer")])].

(** A world like the sample one whose tokens carry no [exp]. *)
Definition world_without_exp : World :=
  {| get_unverified_headers := fun _ => inr sample_headers;
     requests_get := fun _ => inr "{...}";
     json_loads := fun _ => inr (JObj [("keys", JArr [other_jwk; sample_jwk])]);
     jwk_construct := fun key => inr (KeyOf key);
     base64url_decode := fun data => inr data;
     verify := fun _ _ _ => inr true;
     get_unverified_claims := fun _ => inr [("aud", JStr "client-1")];
     time_time := 1000 |}.

(** A world like the sample one whose user pool publishes a key set in
    which the token's key is missing. *)
Definition world_without_key : World :=
  {| get_unverified_headers := fun _ => inr sample_headers;
     requests_get := fun _ => inr "{...}";
     json_loads := fun _ => inr (JObj [("keys", JArr [other_jwk])]);
     jwk_construct := fun key => inr (KeyOf key);
     base64url_decode := fun data => inr data;
     verify := fun _ _ _ => inr true;
     get_unverified_claims := fun _ => inr (sample_claims 2000);
     time_time := 1000 |}.

(** A second key published under the [kid] of [sample_jwk]. *)
Definition rotated_jwk : json :=
  JObj [("kid", JStr "key-1"); ("kty", JStr "RSA"); ("alg", JStr "RS512")].

(** * Properties of the policy builder *)

Lemma unconditioned_conditioned (m : method) :
  conditioned m = negb (is_unconditioned m).
Proof. reflexivity. Qed.

(** The loop sends each grant to one of two places and keeps the order
    of arrival in both. *)
Lemma statement_loop_spec (effect : string) (methods : list method) :
  forall (st : statement) (sts : list statement),
    AuthPolicy.statement_loop effect methods st sts =
    ({| Action := Action st; Effect := Effect st;
        Resource := Resource st ++ map resourceArn
                                       (filter is_unconditioned methods);
        Condition := Condition st |},
     sts ++ map (standalone effect) (filter conditioned methods)).
Proof.
  induction methods as [| m rest IH]; intros st sts; simpl.
  - destruct st; simpl. now rewrite !app_nil_r.
  - unfold conditioned, is_unconditioned in *.
    destruct (unconditioned (method_conditions m)) eqn:U; simpl.
    + rewrite IH. simpl. now rewrite <- app_assoc.
    + rewrite IH. simpl. now rewrite <- app_assoc.
Qed.

Lemma getStatementForEffect_spec (effect : string) (methods : list method) :
  AuthPolicy._getStatementForEffect effect methods =
  map (standalone effect) (filter conditioned methods) ++ merged effect methods.
Proof.
  unfold AuthPolicy._getStatementForEffect, merged.
  destruct methods as [| m rest]; [reflexivity |].
  change (0 <? length (m :: rest))%nat with true. cbv iota.
  rewrite statement_loop_spec.
  generalize (filter conditioned (m :: rest)) as cs.
  generalize (filter is_unconditioned (m :: rest)) as us.
  intros [| u us] cs; simpl.
  - now rewrite app_nil_r.
  - reflexivity.
Qed.

Lemma build_spec (self : AuthPolicy.t) :
  AuthPolicy.allowMethods self <> [] \/ AuthPolicy.denyMethods self <> [] ->
  AuthPolicy.build self =
  inr {| response_principalId := AuthPolicy.principalId self;
         response_policyDocument :=
           {| Version := AuthPolicy.version self;
              Statements :=
                built_order (AuthPolicy.allowMethods self)
                            (AuthPolicy.denyMethods self) |};
         context := None |}.
Proof.
  intros H. unfold AuthPolicy.build, built_order.
  rewrite !getStatementForEffect_spec.
  destruct (AuthPolicy.allowMethods self) as [| a al];
    destruct (AuthPolicy.denyMethods self) as [| d dl]; simpl;
    try reflexivity.
  - destruct H as [H | H]; now elim H.
  - now rewrite <- !app_assoc.
  - now rewrite <- !app_assoc.
Qed.

Lemma mem_In (s : string) (l : list string) : mem s l = true <-> In s l.
Proof.
  unfold mem. rewrite existsb_exists. split.
  - intros [x [Hin Heq]]. apply String.eqb_eq in Heq. now subst.
  - intros Hin. exists s. split; [assumption | apply String.eqb_refl].
Qed.

(** The verb check passes on the star, on the names of the class body
    and on the names of the interpreter, and on nothing else. *)
Lemma bad_verb_false (type_attr : string -> bool) (verb : string) :
  AuthPolicy.bad_verb type_attr verb = false <->
  verb = "*" \/ In verb HttpVerb.names \/ type_attr verb = true.
Proof.
  unfold AuthPolicy.bad_verb, hasattr_HttpVerb.
  rewrite andb_false_iff, !negb_false_iff, orb_true_iff.
  now rewrite String.eqb_eq, mem_In.
Qed.

Lemma enumerated_verbs_values : enumerated_verbs = HttpVerb.values.
Proof. reflexivity. Qed.

Lemma enumerated_verb_ok (type_attr : string -> bool) (verb : string) :
  In verb enumerated_verbs -> AuthPolicy.bad_verb type_attr verb = false.
Proof.
  intros H. apply bad_verb_false. simpl in H.
  destruct H as [H | [H | [H | [H | [H | [H | [H | [H | []]]]]]]]];
    subst; simpl; tauto.
Qed.

Lemma strip_slash_spec (resource : string) :
  (if String.eqb (first1 resource) "/" then from1 resource else resource)
  = strip_slash resource.
Proof.
  destruct resource as [| c rest]; [reflexivity |].
  simpl. destruct (Ascii.eqb_spec c "/") as [E | NE].
  - subst. reflexivity.
  - destruct c as [[] [] [] [] [] [] [] []]; try reflexivity.
    now elim NE.
Qed.

(** C3, as announced: the merged statement of an effect comes before
    the statements of its conditioned grants.  It does not on a policy
    whose allow list holds a conditioned grant and an unconditioned
    one: the loop appends the conditioned statement as it meets the
    grant and the merged statement after the loop. *)
Lemma C3_announced_order_fails :
  exists r : response,
    AuthPolicy.build mixed_policy = inr r
    /\ Statements (response_policyDocument r)
       <> announced_order (AuthPolicy.allowMethods mixed_policy)
                          (AuthPolicy.denyMethods mixed_policy).
Proof.
  eexists. split; [reflexivity |].
  vm_compute. intros H. discriminate H.
Qed.

(** C3, amended: the statements of a built document are, in this order,
    one statement per conditioned Allow grant in insertion order, the
    merged unconditioned Allow statement if there is an unconditioned
    Allow grant, one statement per conditioned Deny grant in insertion
    order, and the merged unconditioned Deny statement if any. *)
Theorem C3_statement_order (self : AuthPolicy.t) (r : response) :
  AuthPolicy.build self = inr r ->
  Statements (response_policyDocument r) =
  map (standalone "Allow") (filter conditioned (AuthPolicy.allowMethods self))
  ++ merged "Allow" (AuthPolicy.allowMethods self)
  ++ map (standalone "Deny") (filter conditioned (AuthPolicy.denyMethods self))
  ++ merged "Deny" (AuthPolicy.denyMethods self).
Proof.
  intros H.
  destruct (AuthPolicy.allowMethods self) as [| a al] eqn:EA;
    destruct (AuthPolicy.denyMethods self) as [| d dl] eqn:ED.
  - unfold AuthPolicy.build in H. rewrite EA, ED in H. discriminate H.
  - rewrite build_spec in H by (right; rewrite ED; discriminate).
    injection H as <-. simpl. now rewrite EA, ED.
  - rewrite build_spec in H by (left; rewrite EA; discriminate).
    injection H as <-. simpl. now rewrite EA, ED.
  - rewrite build_spec in H by (left; rewrite EA; discriminate).
    injection H as <-. simpl. now rewrite EA, ED.
Qed.

Lemma C3_statement_order_witness :
  exists r : response,
    AuthPolicy.build mixed_policy = inr r
    /\ Statements (response_policyDocument r) =
       [standalone "Allow"
          (Method
             "arn:aws:execute-api:us-east-1:111122223333:abcd123/prod/GET/a"
             sample_condition);
        {| Action := "execute-api:Invoke"; Effect := "Allow";
           Resource :=
             ["arn:aws:execute-api:us-east-1:111122223333:abcd123/prod/GET/b"];
           Condition := None |}].
Proof.
  eexists. split; [reflexivity |].
  apply (@C3_statement_order mixed_policy). reflexivity.
Defined.

(** C6: for a grant whose verb is one of the enumeration and whose path
    matches the pattern, the resource ARN recorded in the list of its
    effect is
    [arn:aws:execute-api:{region}:{accountId}:{apiId}/{stage}/{verb}/{path}]
    with one leading slash of the path taken off, at the end of that
    list, the other list being left alone; with GET and [/users/123] in
    region us-east-1, account 111122223333, API abcd123 and stage prod
    the grant recorded, and the resource of the document built from it,
    is
    [arn:aws:execute-api:us-east-1:111122223333:abcd123/prod/GET/users/123]. *)
Theorem C6_resource_arn (type_attr : string -> bool) (self : AuthPolicy.t)
    (effect verb path : string) (conds : conditions) :
  In verb enumerated_verbs ->
  pathRegex_match path = true ->
  let arn :=
    ("arn:aws:execute-api:" ++ AuthPolicy.region self ++ ":"
       ++ AuthPolicy.awsAccountId self ++ ":" ++ AuthPolicy.restApiId self
       ++ "/" ++ AuthPolicy.stage self ++ "/" ++ verb ++ "/"
       ++ strip_slash path)%string in
  (lower effect = "allow" ->
   exists self' : AuthPolicy.t,
     AuthPolicy._addMethod type_attr self effect verb path conds = inr self'
     /\ AuthPolicy.allowMethods self'
        = AuthPolicy.allowMethods self
          ++ [ {| resourceArn := arn; method_conditions := conds |} ]
     /\ AuthPolicy.denyMethods self' = AuthPolicy.denyMethods self)
  /\ (lower effect = "deny" ->
      exists self' : AuthPolicy.t,
        AuthPolicy._addMethod type_attr self effect verb path conds
        = inr self'
        /\ AuthPolicy.denyMethods self'
           = AuthPolicy.denyMethods self
             ++ [ {| resourceArn := arn; method_conditions := conds |} ]
        /\ AuthPolicy.allowMethods self' = AuthPolicy.allowMethods self)
  /\ (forall policy : AuthPolicy.t,
        AuthPolicy.region policy = "us-east-1" ->
        AuthPolicy.awsAccountId policy = "111122223333" ->
        AuthPolicy.restApiId policy = "abcd123" ->
        AuthPolicy.stage policy = "prod" ->
        AuthPolicy.allowMethods policy = [] ->
        AuthPolicy.denyMethods policy = [] ->
        exists (self' : AuthPolicy.t) (r : response),
          AuthPolicy._addMethod type_attr policy "Allow" "GET" "/users/123"
            (Some [])
          = inr self'
          /\ AuthPolicy.allowMethods self'
             = [ {| resourceArn :=
                      "arn:aws:execute-api:us-east-1:111122223333:abcd123/prod/GET/users/123";
                    method_conditions := Some [] |} ]
          /\ AuthPolicy.denyMethods self' = []
          /\ AuthPolicy.build self' = inr r
          /\ Statements (response_policyDocument r)
             = [ {| Action := "execute-api:Invoke"; Effect := "Allow";
                    Resource :=
                      ["arn:aws:execute-api:us-east-1:111122223333:abcd123/prod/GET/users/123"];
                    Condition := None |} ]).
Proof.
  intros Hverb Hpath arn.
  unfold AuthPolicy._addMethod.
  rewrite (enumerated_verb_ok type_attr Hverb), Hpath.
  cbv beta iota. simpl negb. cbv iota.
  rewrite strip_slash_spec.
  split; [| split].
  - intros E. rewrite E. eexists. split; [reflexivity |].
    split; reflexivity.
  - intros E. rewrite E. eexists. split; [reflexivity |].
    split; reflexivity.
  - intros policy Hr Ha Hi Hs Hal Hdl.
    simpl. rewrite Hr, Ha, Hi, Hs. eexists. eexists.
    split; [reflexivity |]. simpl. rewrite Hal, Hdl.
    split; [reflexivity |]. split; [reflexivity |].
    unfold AuthPolicy.build. simpl. rewrite Hal, Hdl.
    split; reflexivity.
Qed.

Lemma C6_resource_arn_witness :
  In "PUT" enumerated_verbs
  /\ pathRegex_match "/orders/*" = true
  /\ lower "DENY" = "deny"
  /\ exists self' : AuthPolicy.t,
       AuthPolicy._addMethod sample_type_attr mixed_policy "DENY" "PUT"
         "/orders/*" None
       = inr self'
       /\ AuthPolicy.denyMethods self'
          = AuthPolicy.denyMethods mixed_policy
            ++ [ {| resourceArn :=
                     "arn:aws:execute-api:us-east-1:111122223333:abcd123/prod/PUT/orders/*";
                   method_conditions := None |} ]
       /\ AuthPolicy.allowMethods self' = AuthPolicy.allowMethods mixed_policy.
Proof.
  assert (In "PUT" enumerated_verbs) as Hverb by (simpl; tauto).
  assert (pathRegex_match "/orders/*" = true) as Hpath by reflexivity.
  split; [exact Hverb | split; [exact Hpath | split; [reflexivity |]]].
  apply (proj1 (proj2 (@C6_resource_arn sample_type_attr mixed_policy
                         "DENY" "PUT" "/orders/*" None Hverb Hpath))).
  reflexivity.
Defined.





(** C8: a policy on which no grant was recorded cannot be built;
    [build] raises the error of a policy without statements, whatever
    the principal, account, region, API and stage. *)
Theorem C8_build_empty (self : AuthPolicy.t) :
  AuthPolicy.allowMethods self = [] ->
  AuthPolicy.denyMethods self = [] ->
  AuthPolicy.build self
  = inl (NameError "No statements defined for the policy").
Proof.
  intros EA ED. unfold AuthPolicy.build. now rewrite EA, ED.
Qed.

Lemma C8_build_empty_witness :
  AuthPolicy.allowMethods sample_policy = []
  /\ AuthPolicy.denyMethods sample_policy = []
  /\ AuthPolicy.build sample_policy
     = inl (NameError "No statements defined for the policy").
Proof.
  split; [reflexivity | split; [reflexivity |]].
  apply (@C8_build_empty sample_policy); reflexivity.
Defined.

(** C9 at the verb [ALL]: it is a name of the class [HttpVerb] and not
    one of its values, so it is outside the enumeration; the verb check
    lets it through and the grant is recorded with [ALL] in the place of
    the verb. *)
Theorem C9_verb_ALL_accepted (type_attr : string -> bool) :
  ~ In "ALL" enumerated_verbs
  /\ AuthPolicy.bad_verb type_attr "ALL" = false
  /\ AuthPolicy.denyMethod type_attr sample_policy "ALL" "/admin"
     = inr (AuthPolicy.append_deny sample_policy
              (Method
                 "arn:aws:execute-api:us-east-1:111122223333:abcd123/prod/ALL/admin"
                 (Some []))).
Proof.
  split; [| split; reflexivity].
  simpl. intros [H | [H | [H | [H | [H | [H | [H | [H | []]]]]]]]];
    discriminate H.
Qed.

(** C10: an effect that is neither [allow] nor [deny] once put in lower
    case records nothing.  With a verb and a path that pass the checks,
    as every enumerated verb does, the call raises no error and returns the policy as it was, so both
    lists, and every document built from them afterwards, are the ones
    of before. *)
Theorem C10_unknown_effect_dropped (type_attr : string -> bool)
    (self : AuthPolicy.t) (effect verb path : string) (conds : conditions) :
  AuthPolicy.bad_verb type_attr verb = false ->
  pathRegex_match path = true ->
  lower effect <> "allow" ->
  lower effect <> "deny" ->
  exists self' : AuthPolicy.t,
    AuthPolicy._addMethod type_attr self effect verb path conds = inr self'
    /\ AuthPolicy.allowMethods self' = AuthPolicy.allowMethods self
    /\ AuthPolicy.denyMethods self' = AuthPolicy.denyMethods self
    /\ AuthPolicy.build self' = AuthPolicy.build self.
Proof.
  intros Hverb Hpath NA ND. exists self.
  unfold AuthPolicy._addMethod. rewrite Hverb, Hpath. simpl negb. cbv iota.
  apply String.eqb_neq in NA. apply String.eqb_neq in ND.
  rewrite NA, ND. repeat split.
Qed.

Lemma C10_unknown_effect_dropped_witness :
  AuthPolicy.bad_verb sample_type_attr "GET" = false
  /\ pathRegex_match "/users" = true
  /\ lower "Permit" <> "allow"
  /\ lower "Permit" <> "deny"
  /\ exists self' : AuthPolicy.t,
       AuthPolicy._addMethod sample_type_attr mixed_policy "Permit" "GET"
         "/users" None = inr self'
       /\ AuthPolicy.allowMethods self' = AuthPolicy.allowMethods mixed_policy
       /\ AuthPolicy.denyMethods self' = AuthPolicy.denyMethods mixed_policy
       /\ AuthPolicy.build self' = AuthPolicy.build mixed_policy.
Proof.
  assert (lower "Permit" <> "allow") as NA by (vm_compute; discriminate).
  assert (lower "Permit" <> "deny") as ND by (vm_compute; discriminate).
  repeat (split; [first [reflexivity | assumption] |]).
  apply (@C10_unknown_effect_dropped sample_type_attr mixed_policy "Permit"
           "GET" "/users" None); first [reflexivity | assumption].
Defined.

(** * Properties of the validator and of the handler *)

(** Up to the signature check the run is fixed by the answers of the
    world; below it the function is [claim_checks]. *)
Lemma validate_token_reaches (w : World)
    (token region user_pool_id : string) (verified : bool)
    (calls : list call) :
  reaches_verify w token region user_pool_id verified calls ->
  forall (client_id user_agent : string) (log : list call),
    validate_token w token region user_pool_id client_id user_agent log
    = (if verified then claim_checks w token client_id user_agent
       else raise (InvalidTokenError "Invalid token signature."))
        (log ++ calls).
Proof.
  intros H client_id user_agent log.
  destruct H as [headers text loaded keys items target_key public_key
                 message signature decode_signature verified
                 Hh Hg Hl Hk Hi Hf Hc Hs Hd Hv].
  unfold validate_token, claim_checks, bind, extern, lift.
  rewrite Hh, Hg, Hl, Hk, Hi, Hf, Hc, Hs. cbn [index nth_error].
  rewrite Hd, Hv.
  repeat rewrite <- app_assoc. simpl app.
  destruct verified; reflexivity.
Qed.

(** In the sample world a token of three segments reaches the signature
    check, which answers as the world was told. *)
Lemma sample_reaches (signature_ok : bool) (exp now : Q) :
  reaches_verify (sample_world signature_ok exp now) "h.p.s" "us-east-1"
    "us-east-1_Pool" signature_ok
    [Call_get_unverified_headers "h.p.s";
     Call_requests_get (keys_url "us-east-1" "us-east-1_Pool");
     Call_json_loads "{...}";
     Call_jwk_construct sample_jwk;
     Call_base64url_decode "s";
     Call_verify (KeyOf sample_jwk) "h.p" "s"].
Proof.
  eapply (@Reaches_verify (sample_world signature_ok exp now) "h.p.s"
            "us-east-1" "us-east-1_Pool" sample_headers "{...}"
            (JObj [("keys", JArr [other_jwk; sample_jwk])])
            (JArr [other_jwk; sample_jwk]) [other_jwk; sample_jwk]
            sample_jwk (KeyOf sample_jwk) "h.p" "s" "s" signature_ok);
    reflexivity.
Qed.

Lemma rsplit_dot_length (s : string) : (length (rsplit_dot s) <= 2)%nat.
Proof.
  induction s as [| c rest IH]; simpl; [lia |].
  destruct (rsplit_dot rest) as [| h [| t more]]; simpl in *; try lia.
  destruct (Ascii.eqb c "."); simpl; lia.
Qed.

Lemma rsplit_dot_two (s message signature : string) :
  index (rsplit_dot s) 0 = inr message ->
  index (rsplit_dot s) 1 = inr signature ->
  rsplit_dot s = [message; signature].
Proof.
  pose proof (rsplit_dot_length s) as L. unfold index.
  destruct (rsplit_dot s) as [| m [| g [| x more]]]; simpl in *;
    try discriminate; try lia.
  intros H1 H2. injection H1 as ->. injection H2 as ->. reflexivity.
Qed.

(** Destructs the innermost scrutinee of the goal. *)
Ltac run_step :=
  match goal with
  | |- context [match ?x with _ => _ end] =>
      lazymatch x with
      | context [match _ with _ => _ end] => fail
      | _ => destruct x eqn:?; cbv beta iota; cbn [fst snd]
      end
  end.

(** On every run, a call that reads the claims or the clock is made only
    after the signature check has answered yes. *)
Lemma claims_only_after_verify (w : World)
    (token region user_pool_id client_id user_agent : string)
    (log : list call) :
  exists calls : list call,
    snd (validate_token w token region user_pool_id client_id user_agent log)
    = log ++ calls
    /\ (existsb inspects_claims calls = true ->
        exists checked : list call,
          reaches_verify w token region user_pool_id true checked).
Proof.
  unfold validate_token, bind, extern, lift, raise, ret.
  repeat run_step.
  all: eexists; split;
    [ repeat rewrite <- app_assoc; try reflexivity;
      try (rewrite <- (app_nil_r log) at 1; reflexivity)
    | simpl; intros I; try discriminate I ].
  all: match goal with
       | V : verify _ _ _ _ = inr ?b, N : negb ?b = false |- _ =>
           destruct b; [| discriminate N]
       end.
  all: eexists; eapply Reaches_verify; eauto using rsplit_dot_two.
Qed.

(** C1: a token whose signature does not verify is refused with the
    reason of the signature, whatever its claims, the clock, the client
    id and the user agent are, and none of the calls of the run reads
    the claims or the clock: the checks of expiry, audience and user
    agent are not reached.  So a token with a forged payload and an
    expiry far ahead is refused for its signature, not for its expiry.
    And on every run, of any token, the claims are read only after the
    signature has verified. *)
Theorem C1_signature_before_claims (w : World)
    (token region user_pool_id client_id user_agent : string)
    (log calls : list call) :
  reaches_verify w token region user_pool_id false calls ->
  validate_token w token region user_pool_id client_id user_agent log
  = (inl (InvalidTokenError "Invalid token signature."), log ++ calls)
  /\ existsb inspects_claims calls = false
  /\ (forall exp now : Q,
        fst (validate_token (sample_world false exp now) "h.p.s" "us-east-1"
               "us-east-1_Pool" "client-1" "cognito-authorizer" [])
        = inl (InvalidTokenError "Invalid token signature."))
  /\ (forall (w' : World)
             (token' region' user_pool_id' client_id' user_agent' : string)
             (log' : list call),
      exists made : list call,
        snd (validate_token w' token' region' user_pool_id' client_id'
               user_agent' log')
        = log' ++ made
        /\ (existsb inspects_claims made = true ->
            exists checked : list call,
              reaches_verify w' token' region' user_pool_id' true checked)).
Proof.
  intros H. split; [| split; [| split]].
  - now rewrite (validate_token_reaches H).
  - inversion H; subst. reflexivity.
  - intros exp now.
    now rewrite (validate_token_reaches (sample_reaches false exp now)).
  - intros. apply claims_only_after_verify.
Qed.

Lemma C1_signature_before_claims_witness :
  reaches_verify (sample_world false 4102444800 1700000000) "h.p.s"
    "us-east-1" "us-east-1_Pool" false
    [Call_get_unverified_headers "h.p.s";
     Call_requests_get (keys_url "us-east-1" "us-east-1_Pool");
     Call_json_loads "{...}";
     Call_jwk_construct sample_jwk;
     Call_base64url_decode "s";
     Call_verify (KeyOf sample_jwk) "h.p" "s"]
  /\ fst (validate_token (sample_world false 4102444800 1700000000) "h.p.s"
            "us-east-1" "us-east-1_Pool" "someone-else" "curl" [])
     = inl (InvalidTokenError "Invalid token signature.").
Proof.
  split; [apply sample_reaches |].
  rewrite (proj1 (@C1_signature_before_claims
                    (sample_world false 4102444800 1700000000) "h.p.s"
                    "us-east-1" "us-east-1_Pool" "someone-else" "curl" [] _
                    (sample_reaches false 4102444800 1700000000))).
  reflexivity.
Defined.

(** [x > q] on the rationals *)
Lemma float_gt_num (x q : Q) :
  float_gt x (JNum q) = inr true <-> (q < x)%Q.
Proof.
  unfold float_gt. destruct (Qle_bool x q) eqn:E; simpl.
  - apply Qle_bool_iff in E. split; [discriminate |].
    intros L. exfalso. exact (Qlt_not_le _ _ L E).
  - split; [| reflexivity]. intros _. apply Qnot_le_lt.
    intros L. apply Qle_bool_iff in L. congruence.
Qed.

(** C2, as announced: a token whose expiry equals the current time is
    refused as expired.  In the sample world with the expiry and the
    clock both at 1000 the signature verifies, [exp <= now] holds and
    the token is accepted. *)
Lemma C2_expiry_boundary_accepted :
  reaches_verify (sample_world true 1000 1000) "h.p.s" "us-east-1"
    "us-east-1_Pool" true
    [Call_get_unverified_headers "h.p.s";
     Call_requests_get (keys_url "us-east-1" "us-east-1_Pool");
     Call_json_loads "{...}";
     Call_jwk_construct sample_jwk;
     Call_base64url_decode "s";
     Call_verify (KeyOf sample_jwk) "h.p" "s"]
  /\ get_unverified_claims (sample_world true 1000 1000) "h.p.s"
     = inr (sample_claims 1000)
  /\ get (sample_claims 1000) "exp" = Some (JNum 1000)
  /\ (1000 <= time_time (sample_world true 1000 1000))%Q
  /\ fst (validate_token (sample_world true 1000 1000) "h.p.s" "us-east-1"
            "us-east-1_Pool" "client-1" "cognito-authorizer" [])
     = inr tt.
Proof.
  split; [apply sample_reaches |].
  split; [reflexivity |]. split; [reflexivity |].
  split; [apply Qle_refl |].
  rewrite (validate_token_reaches (sample_reaches true 1000 1000)).
  reflexivity.
Qed.

(** C2, amended: for a token that passes the signature check and whose
    claims carry a numeric [exp], validation fails with the reason of
    expiry if and only if [exp] is strictly before the current time; a
    token whose [exp] equals the current time is not refused as
    expired. *)
Theorem C2_expired_iff_past (w : World)
    (token region user_pool_id client_id user_agent : string)
    (log calls : list call) (claims : dict json) (exp : Q) :
  reaches_verify w token region user_pool_id true calls ->
  get_unverified_claims w token = inr claims ->
  get claims "exp" = Some (JNum exp) ->
  fst (validate_token w token region user_pool_id client_id user_agent log)
  = inl (InvalidTokenError "Token is expired.")
  <-> (exp < time_time w)%Q.
Proof.
  intros H Hc He.
  rewrite (validate_token_reaches H).
  unfold claim_checks, bind, extern, lift, getitem.
  rewrite Hc, He. cbv iota beta.
  rewrite <- float_gt_num.
  destruct (float_gt (time_time w) (JNum exp)) as [e | [|]] eqn:F.
  - discriminate F.
  - simpl. tauto.
  - split; [| discriminate].
    destruct (get claims "aud") as [aud |]; simpl; [| discriminate].
    destruct (ne_str aud client_id); simpl; [discriminate |].
    destruct (String.eqb user_agent "cognito-authorizer"); simpl;
      discriminate.
Qed.

Lemma C2_expired_iff_past_witness :
  reaches_verify (sample_world true 999 1000) "h.p.s" "us-east-1"
    "us-east-1_Pool" true
    [Call_get_unverified_headers "h.p.s";
     Call_requests_get (keys_url "us-east-1" "us-east-1_Pool");
     Call_json_loads "{...}";
     Call_jwk_construct sample_jwk;
     Call_base64url_decode "s";
     Call_verify (KeyOf sample_jwk) "h.p" "s"]
  /\ get_unverified_claims (sample_world true 999 1000) "h.p.s"
     = inr (sample_claims 999)
  /\ get (sample_claims 999) "exp" = Some (JNum 999)
  /\ fst (validate_token (sample_world true 999 1000) "h.p.s" "us-east-1"
            "us-east-1_Pool" "client-1" "cognito-authorizer" [])
     = inl (InvalidTokenError "Token is expired.").
Proof.
  split; [apply sample_reaches |].
  split; [reflexivity |]. split; [reflexivity |].
  apply (proj2 (@C2_expired_iff_past (sample_world true 999 1000) "h.p.s"
                  "us-east-1" "us-east-1_Pool" "client-1"
                  "cognito-authorizer" [] _ (sample_claims 999) 999
                  (sample_reaches true 999 1000) eq_refl eq_refl)).
  reflexivity.
Defined.

(** The policy of the handler: no principal, and the account, region,
    API and stage of the request. *)
Lemma allow_all_build (type_attr : string -> bool)
    (region account_id api_id stage : string) :
  let policy :=
    AuthPolicy.set_stage
      (AuthPolicy.set_restApiId
         (AuthPolicy.set_region (AuthPolicy.__init__ "" account_id) region)
         api_id) stage in
  (exists allowed : AuthPolicy.t,
     AuthPolicy.allowAllMethods type_attr policy = inr allowed
     /\ AuthPolicy.build allowed
        = inr (all_methods_response "Allow" region account_id api_id stage))
  /\ (exists denied : AuthPolicy.t,
        AuthPolicy.denyAllMethods type_attr policy = inr denied
        /\ AuthPolicy.build denied
           = inr (all_methods_response "Deny" region account_id api_id stage)).
Proof.
  split; eexists; split; reflexivity.
Qed.

(** The handler, once its lookups succeed, is decided by the outcome of
    [validate_token]. *)
Lemma lambda_handler_spec (type_attr : string -> bool) (w : World)
    (environ : dict string) (event : dict (dict string))
    (region user_pool_id client_id account_id api_id stage token
       user_agent : string) (log : list call) :
  request environ event region user_pool_id client_id account_id api_id
          stage token user_agent ->
  lambda_handler type_attr w environ event log
  = match validate_token w token region user_pool_id client_id user_agent
            log with
    | (inr _, log') =>
        (inr (all_methods_response "Allow" region account_id api_id stage),
         log')
    | (inl (InvalidTokenError msg), log') =>
        (inr (set_context
                (all_methods_response "Deny" region account_id api_id stage)
                (InvalidTokenError msg)),
         log')
    | (inl e, log') => (inl e, log')
    end.
Proof.
  intros [requestContext headers H1 H2 H3 H4 H5 H6 H7 H8 H9 H10].
  unfold lambda_handler, bind, lift, getitem.
  rewrite H1, H2, H3, H4, H5, H6, H7.
  unfold with_policy, try_except_InvalidTokenError, bind, lift, getitem.
  rewrite H8, H9, H10.
  unfold in_world. cbn [fst snd].
  destruct (validate_token w token region user_pool_id client_id user_agent
              log) as [[e | u] log'].
  - destruct e; reflexivity.
  - reflexivity.
Qed.

(** The key lookup raises [KeyError] or [TypeError] only. *)
Lemma find_key_error (keys : list json) (headers : dict json) :
  forall (target_key : option json) (msg : string),
    find_key keys headers target_key <> inl (InvalidTokenError msg).
Proof.
  induction keys as [| key rest IH]; intros target_key msg; simpl.
  - discriminate.
  - unfold subscript, getitem.
    destruct key; try discriminate.
    destruct (get members "kid"); [| discriminate].
    destruct (get headers "kid"); [| discriminate].
    apply IH.
Qed.

(** Whatever the world answers, an [InvalidTokenError] of
    [validate_token] carries one of the five reasons. *)
Lemma invalid_token_reasons (w : World)
    (token region user_pool_id client_id user_agent msg : string)
    (log : list call) :
  fst (validate_token w token region user_pool_id client_id user_agent log)
  = inl (InvalidTokenError msg) ->
  In msg reasons.
Proof.
  unfold validate_token, bind, extern, lift, raise, ret.
  unfold subscript, iterate, index, float_gt, getitem.
  repeat run_step;
    intros H; try discriminate H;
    try (injection H as <-; simpl; tauto).
  all: injection H as ->.
  all: match goal with
       | F : find_key _ _ _ = inl _ |- _ => now apply find_key_error in F
       end.
Qed.

Lemma sample_request (token : string) :
  request sample_environ (sample_event token) "us-east-1" "us-east-1_Pool"
    "client-1" "111122223333" "abcd123" "prod" token "cognito-authorizer".
Proof.
  eapply (@Request sample_environ (sample_event token) "us-east-1"
            "us-east-1_Pool" "client-1" "111122223333" "abcd123" "prod"
            token "cognito-authorizer"
            [("accountId", "111122223333"); ("apiId", "abcd123");
             ("stage", "prod")]
            [("Authorization", token); ("User-Agent", "cognito-authorizer")]);
    reflexivity.
Qed.

(** C4, as announced: a malformed token fails with [InvalidTokenError]
    and the reason of a malformed token, which the handler turns into a
    deny-all policy.  A token without dots is refused by the decoder
    with the decoder's own exception: validation raises that exception,
    no [InvalidTokenError], and the handler raises it too and returns no
    policy. *)
Lemma C4_malformed_is_not_invalid_token :
  count_dots "not-a-token" <> 2%nat
  /\ (forall msg : string,
        fst (validate_token (sample_world true 2000 1000) "not-a-token"
               "us-east-1" "us-east-1_Pool" "client-1" "cognito-authorizer"
               [])
        <> inl (InvalidTokenError msg))
  /\ fst (lambda_handler sample_type_attr (sample_world true 2000 1000)
            sample_environ (sample_event "not-a-token") [])
     = inl (LibraryError "JWTError").
Proof.
  split; [vm_compute; discriminate |].
  split; [intros msg; vm_compute; discriminate | reflexivity].
Qed.

(** C4, amended: a token the decoder refuses makes validation fail with
    the exception of the decoder, after that one call; it is not an
    [InvalidTokenError], whose reasons are the five of [reasons] and
    none of them a malformed token, and the handler lets it through
    instead of answering with a deny-all policy. *)
Theorem C4_decoder_error_propagates (type_attr : string -> bool) (w : World)
    (environ : dict string) (event : dict (dict string))
    (region user_pool_id client_id account_id api_id stage token
       user_agent cls : string) (log : list call) :
  request environ event region user_pool_id client_id account_id api_id
          stage token user_agent ->
  get_unverified_headers w token = inl cls ->
  validate_token w token region user_pool_id client_id user_agent log
  = (inl (LibraryError cls), log ++ [Call_get_unverified_headers token])
  /\ lambda_handler type_attr w environ event log
     = (inl (LibraryError cls), log ++ [Call_get_unverified_headers token])
  /\ (forall (w' : World)
             (token' region' user_pool_id' client_id' user_agent'
                msg : string) (log' : list call),
        fst (validate_token w' token' region' user_pool_id' client_id'
               user_agent' log')
        = inl (InvalidTokenError msg) ->
        In msg reasons).
Proof.
  intros Hreq Hdec.
  assert (validate_token w token region user_pool_id client_id user_agent log
          = (inl (LibraryError cls),
             log ++ [Call_get_unverified_headers token])) as V.
  { unfold validate_token, bind, extern. now rewrite Hdec. }
  split; [exact V |]. split.
  - rewrite (lambda_handler_spec type_attr w log Hreq), V. reflexivity.
  - intros w' token' region' user_pool_id' client_id' user_agent' msg log'.
    apply invalid_token_reasons.
Qed.

Lemma C4_decoder_error_propagates_witness :
  request sample_environ (sample_event "a.b") "us-east-1" "us-east-1_Pool"
    "client-1" "111122223333" "abcd123" "prod" "a.b" "cognito-authorizer"
  /\ get_unverified_headers (sample_world true 2000 1000) "a.b"
     = inl "JWTError"
  /\ lambda_handler sample_type_attr (sample_world true 2000 1000)
       sample_environ (sample_event "a.b") []
     = (inl (LibraryError "JWTError"), [Call_get_unverified_headers "a.b"]).
Proof.
  split; [apply sample_request |]. split; [reflexivity |].
  apply (proj1 (proj2 (@C4_decoder_error_propagates sample_type_attr
                         (sample_world true 2000 1000) sample_environ
                         (sample_event "a.b") "us-east-1" "us-east-1_Pool"
                         "client-1" "111122223333" "abcd123" "prod" "a.b"
                         "cognito-authorizer" "JWTError" []
                         (sample_request "a.b") eq_refl))).
Defined.

(** No [InvalidTokenError] leaves the handler: outside the [try] only
    lookups can fail, and inside it the exception is caught. *)
Lemma handler_catches_invalid_token (type_attr : string -> bool) (w : World)
    (environ : dict string) (event : dict (dict string)) (log : list call)
    (msg : string) :
  fst (lambda_handler type_attr w environ event log)
  <> inl (InvalidTokenError msg).
Proof.
  unfold lambda_handler, bind, lift, getitem.
  destruct (get environ "AWS_DEFAULT_REGION") as [region |];
    [| discriminate].
  destruct (get environ "USER_POOL_ID") as [user_pool_id |];
    [| discriminate].
  destruct (get environ "CLIENT_ID") as [client_id |]; [| discriminate].
  destruct (get event "requestContext") as [requestContext |];
    [| discriminate].
  destruct (get requestContext "accountId") as [account_id |];
    [| discriminate].
  destruct (get requestContext "apiId") as [api_id |]; [| discriminate].
  destruct (get requestContext "stage") as [stage |]; [| discriminate].
  unfold with_policy, try_except_InvalidTokenError, bind, lift, getitem.
  destruct (get event "headers") as [headers |]; [| discriminate].
  destruct (get headers "Authorization") as [token |]; [| discriminate].
  destruct (get headers "User-Agent") as [user_agent |]; [| discriminate].
  unfold in_world. cbn [fst snd].
  destruct (validate_token w token region user_pool_id client_id user_agent
              log) as [[e | u] log'].
  - destruct e; discriminate.
  - discriminate.
Qed.

(** C5: the handler answers by the outcome of the validation.  When it
    succeeds the answer is the allow-all document; when it raises
    [InvalidTokenError] the answer is the deny-all document, whose only
    statement is a Deny without condition on every verb and every
    resource, with the exception under [context]; any other exception
    leaves the handler as it was raised and no document is returned.
    On no request at all does an [InvalidTokenError] leave the
    handler. *)
Theorem C5_handler_decision (type_attr : string -> bool) (w : World)
    (environ : dict string) (event : dict (dict string))
    (region user_pool_id client_id account_id api_id stage token
       user_agent : string) (log : list call) :
  request environ event region user_pool_id client_id account_id api_id
          stage token user_agent ->
  let outcome :=
    validate_token w token region user_pool_id client_id user_agent log in
  (fst outcome = inr tt ->
   lambda_handler type_attr w environ event log
   = (inr (all_methods_response "Allow" region account_id api_id stage),
      snd outcome))
  /\ (forall msg : string,
        fst outcome = inl (InvalidTokenError msg) ->
        lambda_handler type_attr w environ event log
        = (inr {| response_principalId := "";
                  response_policyDocument :=
                    {| Version := "2012-10-17";
                       Statements :=
                         [ {| Action := "execute-api:Invoke";
                              Effect := "Deny";
                              Resource :=
                                [("arn:aws:execute-api:" ++ region ++ ":"
                                    ++ account_id ++ ":" ++ api_id ++ "/"
                                    ++ stage ++ "/*/*")%string];
                              Condition := None |} ] |};
                  context := Some [("message", InvalidTokenError msg)] |},
           snd outcome))
  /\ (forall e : exn,
        fst outcome = inl e ->
        (forall msg : string, e <> InvalidTokenError msg) ->
        lambda_handler type_attr w environ event log = (inl e, snd outcome))
  /\ (forall (environ' : dict string) (event' : dict (dict string))
             (log' : list call) (msg : string),
        fst (lambda_handler type_attr w environ' event' log')
        <> inl (InvalidTokenError msg)).
Proof.
  intros Hreq outcome.
  rewrite (lambda_handler_spec type_attr w log Hreq).
  fold outcome.
  assert (forall (environ' : dict string) (event' : dict (dict string))
                 (log' : list call) (msg : string),
             fst (lambda_handler type_attr w environ' event' log')
             <> inl (InvalidTokenError msg)) as Never
    by (intros; apply handler_catches_invalid_token).
  destruct outcome as [[e | []] log']; cbn [fst snd].
  - split; [discriminate |]. split; [| split; [| exact Never]].
    + intros msg H. injection H as ->. reflexivity.
    + intros e' H NE. injection H as ->.
      destruct e'; try reflexivity. now elim (NE msg).
  - split; [reflexivity |].
    split; [| split; [| exact Never]]; intros; discriminate.
Qed.

Lemma C5_handler_decision_witness :
  request sample_environ (sample_event "h.p.s") "us-east-1" "us-east-1_Pool"
    "client-1" "111122223333" "abcd123" "prod" "h.p.s" "cognito-authorizer"
  /\ fst (lambda_handler sample_type_attr (sample_world true 999 1000)
            sample_environ (sample_event "h.p.s") [])
     = inr (set_context
              (all_methods_response "Deny" "us-east-1" "111122223333"
                 "abcd123" "prod")
              (InvalidTokenError "Token is expired.")).
Proof.
  split; [apply sample_request |].
  rewrite (proj1 (proj2 (@C5_handler_decision sample_type_attr
                           (sample_world true 999 1000) sample_environ
                           (sample_event "h.p.s") "us-east-1"
                           "us-east-1_Pool" "client-1" "111122223333"
                           "abcd123" "prod" "h.p.s" "cognito-authorizer" []
                           (sample_request "h.p.s")))
             "Token is expired." eq_refl).
  reflexivity.
Defined.

(** * Further properties of the policy builder *)

Lemma path_char_newline : path_char newline = false.
Proof. reflexivity. Qed.

Lemma class_plus_end_spec (s : string) :
  forall seen : bool,
    class_plus_end seen s = true <->
    exists body : string,
      all_path_chars body = true
      /\ (seen = true \/ body <> EmptyString)
      /\ (s = body \/ s = (body ++ String newline EmptyString)%string).
Proof.
  induction s as [| c rest IH]; intros seen; simpl.
  - split.
    + intros ->. exists EmptyString. repeat split; auto.
    + intros [body [_ [Hs [E | E]]]].
      * subst body. destruct Hs as [Hs | Hs]; [exact Hs | now elim Hs].
      * destruct body; discriminate E.
  - destruct (path_char c) eqn:P.
    + rewrite IH. split.
      * intros [body [Ha [_ Hs]]]. exists (String c body). simpl.
        rewrite P, Ha. repeat split; auto.
        -- right. discriminate.
        -- destruct Hs as [-> | ->]; auto.
      * intros [body [Ha [_ Hs]]].
        destruct body as [| c' body'].
        -- destruct Hs as [E | E]; [discriminate E |].
           simpl in E. injection E as -> _.
           rewrite path_char_newline in P. discriminate P.
        -- simpl in Ha. apply andb_true_iff in Ha as [_ Ha].
           exists body'. repeat split; auto.
           destruct Hs as [E | E]; simpl in E; injection E as _ ->; auto.
    + split.
      * intros H. apply andb_true_iff in H as [H Hr].
        apply andb_true_iff in H as [Hseen Hc].
        apply Ascii.eqb_eq in Hc. apply String.eqb_eq in Hr. subst.
        exists EmptyString. repeat split; auto.
      * intros [body [Ha [Hs E]]].
        destruct body as [| c' body'].
        -- destruct E as [E | E]; [discriminate E |].
           simpl in E. injection E as -> ->.
           destruct Hs as [-> | Hs]; [| now elim Hs].
           rewrite Ascii.eqb_refl. reflexivity.
        -- simpl in Ha. apply andb_true_iff in Ha as [Hc _].
           destruct E as [E | E]; simpl in E; injection E as -> _;
             congruence.
Qed.

(** X1: the path check accepts exactly the non-empty strings over the
    letters, the digits and [/ . - *], and those strings followed by one
    newline: the dollar of the pattern matches before a final
    newline. *)
Theorem pathRegex_match_spec (s : string) :
  pathRegex_match s = true <->
  exists body : string,
    body <> EmptyString
    /\ all_path_chars body = true
    /\ (s = body \/ s = (body ++ String newline EmptyString)%string).
Proof.
  unfold pathRegex_match. rewrite class_plus_end_spec. split.
  - intros [body [Ha [[F | N] E]]]; [discriminate F |].
    exists body. auto.
  - intros [body [N [Ha E]]]. exists body. auto.
Qed.

(** X2: [_addMethod] returns normally exactly when the verb passes the
    verb check and the path matches the pattern; otherwise it raises a
    [NameError] and records nothing, the verb being judged first. *)
Theorem addMethod_raises_iff (type_attr : string -> bool)
    (self : AuthPolicy.t) (effect verb path : string) (conds : conditions) :
  ((exists self' : AuthPolicy.t,
      AuthPolicy._addMethod type_attr self effect verb path conds = inr self')
   <-> AuthPolicy.bad_verb type_attr verb = false
       /\ pathRegex_match path = true)
  /\ (AuthPolicy.bad_verb type_attr verb = true ->
      AuthPolicy._addMethod type_attr self effect verb path conds
      = inl (NameError ("Invalid HTTP verb " ++ verb
                          ++ ". Allowed verbs in HttpVerb class")))
  /\ (AuthPolicy.bad_verb type_attr verb = false ->
      pathRegex_match path = false ->
      AuthPolicy._addMethod type_attr self effect verb path conds
      = inl (NameError ("Invalid resource path: " ++ path
                          ++ ". Path should match ^[/.a-zA-Z0-9-\*]+$"))).
Proof.
  unfold AuthPolicy._addMethod.
  destruct (AuthPolicy.bad_verb type_attr verb) eqn:V.
  - split; [| split]; try reflexivity; try discriminate.
    split; [intros [self' H]; discriminate H | intros [H _]; discriminate H].
  - destruct (pathRegex_match path) eqn:P; simpl.
    + split; [| split]; try discriminate.
      split; [auto |]. intros _.
      destruct (String.eqb (lower effect) "allow");
        [| destruct (String.eqb (lower effect) "deny")]; eexists; reflexivity.
    + split; [| split]; try reflexivity; try discriminate.
      split; [intros [self' H]; discriminate H | intros [_ H]; discriminate H].
Qed.

(** X3: a call of [_addMethod] that returns keeps what the policy held:
    the account, the principal, the version, the API, the region and the
    stage are untouched, the grants recorded before are still there in
    their order, and at most one grant is added, at the end of one of
    the two lists. *)
Theorem addMethod_frame (type_attr : string -> bool)
    (self self' : AuthPolicy.t) (effect verb path : string)
    (conds : conditions) :
  AuthPolicy._addMethod type_attr self effect verb path conds = inr self' ->
  AuthPolicy.awsAccountId self' = AuthPolicy.awsAccountId self
  /\ AuthPolicy.principalId self' = AuthPolicy.principalId self
  /\ AuthPolicy.version self' = AuthPolicy.version self
  /\ AuthPolicy.restApiId self' = AuthPolicy.restApiId self
  /\ AuthPolicy.region self' = AuthPolicy.region self
  /\ AuthPolicy.stage self' = AuthPolicy.stage self
  /\ exists allowed denied : list method,
       AuthPolicy.allowMethods self' = AuthPolicy.allowMethods self ++ allowed
       /\ AuthPolicy.denyMethods self' = AuthPolicy.denyMethods self ++ denied
       /\ (length allowed + length denied <= 1)%nat
       /\ Forall (fun m => method_conditions m = conds) (allowed ++ denied).
Proof.
  unfold AuthPolicy._addMethod.
  destruct (AuthPolicy.bad_verb type_attr verb); [discriminate |].
  destruct (negb (pathRegex_match path)); [discriminate |].
  destruct (String.eqb (lower effect) "allow");
    [| destruct (String.eqb (lower effect) "deny")];
    intros H; injection H as <-; simpl; repeat split.
  - match goal with
    | |- context [AuthPolicy.allowMethods self ++ [?m]] => exists [m], []
    end.
    rewrite app_nil_r. simpl. repeat split; auto.
  - match goal with
    | |- context [AuthPolicy.denyMethods self ++ [?m]] => exists [], [m]
    end.
    rewrite app_nil_r. simpl. repeat split; auto.
  - exists [], []. rewrite !app_nil_r. simpl. repeat split; auto.
Qed.

Lemma addMethod_frame_witness :
  AuthPolicy._addMethod sample_type_attr mixed_policy "deny" "POST" "/x"
    sample_condition
  = inr (AuthPolicy.append_deny mixed_policy
           (Method
              "arn:aws:execute-api:us-east-1:111122223333:abcd123/prod/POST/x"
              sample_condition))
  /\ AuthPolicy.stage
       (AuthPolicy.append_deny mixed_policy
          (Method
             "arn:aws:execute-api:us-east-1:111122223333:abcd123/prod/POST/x"
             sample_condition))
     = AuthPolicy.stage mixed_policy.
Proof.
  split; [reflexivity |].
  apply (@addMethod_frame sample_type_attr mixed_policy _ "deny" "POST" "/x"
           sample_condition).
  reflexivity.
Defined.

(** X4: once a grant has been recorded by an allow or a deny, the policy
    can be built: [build] does not raise on it. *)
Theorem build_after_grant (type_attr : string -> bool)
    (self self' : AuthPolicy.t) (effect verb path : string)
    (conds : conditions) :
  AuthPolicy._addMethod type_attr self effect verb path conds = inr self' ->
  lower effect = "allow" \/ lower effect = "deny" ->
  exists r : response,
    AuthPolicy.build self' = inr r
    /\ response_principalId r = AuthPolicy.principalId self
    /\ Version (response_policyDocument r) = AuthPolicy.version self
    /\ Statements (response_policyDocument r) <> [].
Proof.
  unfold AuthPolicy._addMethod.
  destruct (AuthPolicy.bad_verb type_attr verb); [discriminate |].
  destruct (negb (pathRegex_match path)); [discriminate |].
  intros H E.
  assert (AuthPolicy.allowMethods self' <> []
          \/ AuthPolicy.denyMethods self' <> []) as NE.
  { destruct E as [E | E]; rewrite E in H; simpl in H.
    - injection H as <-. left. simpl. now destruct (AuthPolicy.allowMethods self).
    - injection H as <-. right. simpl. now destruct (AuthPolicy.denyMethods self). }
  assert (AuthPolicy.principalId self' = AuthPolicy.principalId self
          /\ AuthPolicy.version self' = AuthPolicy.version self) as [EP EV].
  { destruct (String.eqb (lower effect) "allow");
      [| destruct (String.eqb (lower effect) "deny")];
      injection H as <-; split; reflexivity. }
  rewrite (build_spec self' NE). eexists. split; [reflexivity |]. simpl.
  repeat split; auto.
  unfold built_order, merged. intros Z.
  apply app_eq_nil in Z as [Z1 Z]. apply app_eq_nil in Z as [Z2 Z].
  apply app_eq_nil in Z as [Z3 Z4].
  apply map_eq_nil in Z1. apply map_eq_nil in Z3.
  assert (forall ms : list method,
             filter conditioned ms = [] -> filter is_unconditioned ms = [] ->
             ms = []) as Both.
  { induction ms as [| m ms IH]; [reflexivity |]. simpl.
    rewrite unconditioned_conditioned.
    destruct (is_unconditioned m); simpl; discriminate. }
  destruct (filter is_unconditioned (AuthPolicy.allowMethods self')) eqn:FA;
    [| discriminate Z2].
  destruct (filter is_unconditioned (AuthPolicy.denyMethods self')) eqn:FD;
    [| discriminate Z4].
  destruct NE as [NE | NE]; apply NE; apply Both; assumption.
Qed.

Lemma build_after_grant_witness :
  AuthPolicy._addMethod sample_type_attr sample_policy "ALLOW" "HEAD" "/ping"
    None
  = inr (AuthPolicy.append_allow sample_policy
           (Method
              "arn:aws:execute-api:us-east-1:111122223333:abcd123/prod/HEAD/ping"
              None))
  /\ (lower "ALLOW" = "allow" \/ lower "ALLOW" = "deny")
  /\ exists r : response,
       AuthPolicy.build
         (AuthPolicy.append_allow sample_policy
            (Method
               "arn:aws:execute-api:us-east-1:111122223333:abcd123/prod/HEAD/ping"
               None))
       = inr r
       /\ response_principalId r = AuthPolicy.principalId sample_policy
       /\ Version (response_policyDocument r)
          = AuthPolicy.version sample_policy
       /\ Statements (response_policyDocument r) <> [].
Proof.
  split; [reflexivity |]. split; [left; reflexivity |].
  apply (@build_after_grant sample_type_attr sample_policy _ "ALLOW" "HEAD"
           "/ping" None); [reflexivity | left; reflexivity].
Defined.

Lemma filter_split_permutation (ms : list method) :
  Permutation (filter conditioned ms ++ filter is_unconditioned ms) ms.
Proof.
  induction ms as [| m ms IH]; simpl; [constructor |].
  rewrite unconditioned_conditioned.
  destruct (is_unconditioned m); simpl.
  - symmetry. apply Permutation_cons_app. symmetry. exact IH.
  - now constructor.
Qed.

Lemma resources_of_effect (effect : string) (ms : list method) :
  flat_map Resource (AuthPolicy._getStatementForEffect effect ms)
  = map resourceArn (filter conditioned ms ++ filter is_unconditioned ms).
Proof.
  rewrite getStatementForEffect_spec, flat_map_app, map_app. f_equal.
  - induction (filter conditioned ms) as [| m l IH]; simpl; [reflexivity |].
    now rewrite IH.
  - unfold merged.
    destruct (filter is_unconditioned ms); simpl; [reflexivity |].
    now rewrite app_nil_r.
Qed.

(** X5: a built document loses no grant and invents none: the resources
    of its statements, taken together, are the ARNs of the recorded
    grants, each as many times as it was recorded. *)
Theorem build_keeps_resources (self : AuthPolicy.t) (r : response) :
  AuthPolicy.build self = inr r ->
  Permutation
    (flat_map Resource (Statements (response_policyDocument r)))
    (map resourceArn (AuthPolicy.allowMethods self
                        ++ AuthPolicy.denyMethods self)).
Proof.
  unfold AuthPolicy.build.
  destruct ((length (AuthPolicy.allowMethods self) =? 0)%nat
            && (length (AuthPolicy.denyMethods self) =? 0)%nat);
    [discriminate |].
  intros H. injection H as <-. simpl.
  rewrite flat_map_app, !resources_of_effect.
  rewrite (map_app resourceArn (AuthPolicy.allowMethods self)
             (AuthPolicy.denyMethods self)).
  apply Permutation_app; apply Permutation_map, filter_split_permutation.
Qed.

Lemma build_keeps_resources_witness :
  exists r : response,
    AuthPolicy.build mixed_policy = inr r
    /\ Permutation
         (flat_map Resource (Statements (response_policyDocument r)))
         ["arn:aws:execute-api:us-east-1:111122223333:abcd123/prod/GET/a";
          "arn:aws:execute-api:us-east-1:111122223333:abcd123/prod/GET/b"].
Proof.
  eexists. split; [reflexivity |].
  apply (@build_keeps_resources mixed_policy). reflexivity.
Defined.

Lemma statements_of_effect_well_formed (effect : string)
    (ms : list method) :
  effect = "Allow" \/ effect = "Deny" ->
  Forall
    (fun st =>
       well_formed st
       /\ forall c : conditions,
            Condition st = Some c ->
            unconditioned c = false /\ length (Resource st) = 1%nat)
    (AuthPolicy._getStatementForEffect effect ms).
Proof.
  intros E. rewrite getStatementForEffect_spec. apply Forall_app. split.
  - apply Forall_forall. intros st Hin.
    apply in_map_iff in Hin as [m [<- Hm]].
    apply filter_In in Hm as [_ Hc]. unfold conditioned in Hc.
    apply negb_true_iff in Hc.
    unfold well_formed, standalone. simpl. repeat split.
    + destruct E as [-> | ->]; auto.
    + discriminate.
    + injection H as <-. exact Hc.
  - unfold merged.
    destruct (filter is_unconditioned ms) as [| u us]; constructor;
      [| constructor].
    unfold well_formed. simpl. repeat split; try discriminate.
    destruct E as [-> | ->]; auto.
Qed.

(** X6: every statement of a built document is one API Gateway can
    read: its action is [execute-api:Invoke], its effect is [Allow] or
    [Deny], and it names a resource at least; a statement that carries
    a condition carries a non-empty one and names exactly one
    resource. *)
Theorem build_well_formed (self : AuthPolicy.t) (r : response) :
  AuthPolicy.build self = inr r ->
  Forall
    (fun st =>
       well_formed st
       /\ forall c : conditions,
            Condition st = Some c ->
            unconditioned c = false /\ length (Resource st) = 1%nat)
    (Statements (response_policyDocument r)).
Proof.
  unfold AuthPolicy.build.
  destruct ((length (AuthPolicy.allowMethods self) =? 0)%nat
            && (length (AuthPolicy.denyMethods self) =? 0)%nat);
    [discriminate |].
  intros H. injection H as <-. simpl.
  apply Forall_app. split; apply statements_of_effect_well_formed; auto.
Qed.

Lemma build_well_formed_witness :
  exists r : response,
    AuthPolicy.build mixed_policy = inr r
    /\ Forall
         (fun st =>
            well_formed st
            /\ forall c : conditions,
                 Condition st = Some c ->
                 unconditioned c = false /\ length (Resource st) = 1%nat)
         (Statements (response_policyDocument r)).
Proof.
  eexists. split; [reflexivity |].
  apply (@build_well_formed mixed_policy). reflexivity.
Defined.



(** * Further properties of the validator and of the handler *)

(** X8: the split of a token at its last dot loses nothing.  A token
    with a dot is cut into a message and a signature that give the token
    back when joined by a dot, and the signature has no dot; a token
    without a dot comes back whole, so the signature, the second part,
    does not exist. *)
Theorem rsplit_dot_spec (token : string) :
  match rsplit_dot token with
  | [whole] =>
      whole = token /\ count_dots token = 0%nat
      /\ index (rsplit_dot token) 1 = inl IndexError
  | [message; signature] =>
      token = (message ++ "." ++ signature)%string
      /\ count_dots signature = 0%nat
      /\ (0 < count_dots token)%nat
  | _ => False
  end.
Proof.
  induction token as [| c rest IH]; simpl.
  - repeat split.
  - destruct (rsplit_dot rest) as [| a [| b [| x more]]] eqn:R;
      try contradiction.
    + destruct IH as [-> [Z _]].
      destruct (Ascii.eqb_spec c ".") as [-> | NE]; simpl.
      * repeat split; auto. lia.
      * rewrite Z. repeat split; auto.
    + destruct IH as [E [Z P]]. repeat split; auto.
      * simpl. f_equal. exact E.
      * destruct (Ascii.eqb c "."); lia.
Qed.

Lemma find_key_app (keys more : list json) (headers : dict json) :
  forall (target_key found : option json),
    find_key keys headers target_key = inr found ->
    find_key (keys ++ more) headers target_key
    = find_key more headers found.
Proof.
  induction keys as [| key rest IH]; intros target_key found; simpl.
  - intros H. now injection H as ->.
  - destruct (subscript key "kid"); [discriminate |].
    destruct (getitem headers "kid"); [discriminate |].
    apply IH.
Qed.

Lemma find_key_has_kid (keys : list json) (headers : dict json)
    (wanted : json) :
  getitem headers "kid" = inr wanted ->
  Forall has_kid keys ->
  forall target_key : option json,
    exists found : option json, find_key keys headers target_key = inr found.
Proof.
  intros Hh Hall. induction Hall as [| key rest [kid Hk] _ IH];
    intros target_key; simpl.
  - eauto.
  - rewrite Hk, Hh. apply IH.
Qed.

Lemma find_key_other (keys : list json) (headers : dict json)
    (wanted : json) :
  getitem headers "kid" = inr wanted ->
  Forall (other_kid wanted) keys ->
  forall target_key : option json,
    find_key keys headers target_key = inr target_key.
Proof.
  intros Hh Hall. induction Hall as [| key rest [kid [Hk Ne]] _ IH];
    intros target_key; simpl.
  - reflexivity.
  - rewrite Hk, Hh, Ne. apply IH.
Qed.

(** X9: when several keys of the key set carry the [kid] of the token,
    the loop keeps the last of them: it runs to the end of the list and
    overwrites an earlier match. *)
Theorem find_key_last_match (before after : list json) (key kid wanted : json)
    (headers : dict json) (target_key : option json) :
  getitem headers "kid" = inr wanted ->
  Forall has_kid before ->
  subscript key "kid" = inr kid ->
  py_eq kid wanted = true ->
  Forall (other_kid wanted) after ->
  find_key (before ++ key :: after) headers target_key = inr (Some key).
Proof.
  intros Hh Hb Hk He Ha.
  destruct (find_key_has_kid headers Hh Hb target_key) as [found Hf].
  rewrite (find_key_app before (key :: after) headers target_key Hf).
  simpl. rewrite Hk, Hh, He. now apply find_key_other with (wanted := wanted).
Qed.

Lemma find_key_last_match_witness :
  getitem sample_headers "kid" = inr (JStr "key-1")
  /\ Forall has_kid [other_jwk; sample_jwk]
  /\ subscript rotated_jwk "kid" = inr (JStr "key-1")
  /\ py_eq (JStr "key-1") (JStr "key-1") = true
  /\ Forall (other_kid (JStr "key-1")) [other_jwk]
  /\ find_key ([other_jwk; sample_jwk] ++ rotated_jwk :: [other_jwk])
       sample_headers None
     = inr (Some rotated_jwk).
Proof.
  assert (Forall has_kid [other_jwk; sample_jwk]) as Hb.
  { repeat constructor; eexists; reflexivity. }
  assert (Forall (other_kid (JStr "key-1")) [other_jwk]) as Ha.
  { repeat constructor. exists (JStr "key-0"). split; reflexivity. }
  repeat (split; [first [reflexivity | assumption] |]).
  apply (@find_key_last_match [other_jwk; sample_jwk] [other_jwk] rotated_jwk
           (JStr "key-1") (JStr "key-1") sample_headers None);
    first [reflexivity | assumption].
Defined.

(** X10: when no key of the fetched key set carries the [kid] of the
    token, an empty key set included, the token is refused for its key
    after the three calls that fetch and decode the key set: no key is
    constructed and no signature is checked. *)
Theorem unknown_key_refused (w : World)
    (token region user_pool_id client_id user_agent text : string)
    (headers : dict json) (loaded keys wanted : json) (items : list json)
    (log : list call) :
  get_unverified_headers w token = inr headers ->
  requests_get w (keys_url region user_pool_id) = inr text ->
  json_loads w text = inr loaded ->
  subscript loaded "keys" = inr keys ->
  iterate keys = inr items ->
  getitem headers "kid" = inr wanted ->
  Forall (other_kid wanted) items ->
  validate_token w token region user_pool_id client_id user_agent log
  = (inl (InvalidTokenError "Invalid public key in headers."),
     log ++ [Call_get_unverified_headers token;
             Call_requests_get (keys_url region user_pool_id);
             Call_json_loads text]).
Proof.
  intros Hh Hg Hl Hk Hi Hw Ho.
  unfold validate_token, bind, extern, lift, raise.
  rewrite Hh, Hg, Hl, Hk, Hi, (find_key_other headers Hw Ho None).
  now repeat rewrite <- app_assoc.
Qed.

Lemma unknown_key_refused_witness :
  Forall (other_kid (JStr "key-1")) [other_jwk]
  /\ validate_token world_without_key "h.p.s" "us-east-1" "us-east-1_Pool"
       "client-1" "cognito-authorizer" []
     = (inl (InvalidTokenError "Invalid public key in headers."),
        [Call_get_unverified_headers "h.p.s";
         Call_requests_get (keys_url "us-east-1" "us-east-1_Pool");
         Call_json_loads "{...}"]).
Proof.
  assert (Forall (other_kid (JStr "key-1")) [other_jwk]) as Ho.
  { repeat constructor. exists (JStr "key-0"). split; reflexivity. }
  split; [exact Ho |].
  apply (@unknown_key_refused world_without_key "h.p.s" "us-east-1"
           "us-east-1_Pool" "client-1" "cognito-authorizer" "{...}"
           sample_headers (JObj [("keys", JArr [other_jwk])])
           (JArr [other_jwk]) (JStr "key-1") [other_jwk] []);
    first [reflexivity | exact Ho].
Defined.

Lemma getitem_inr (V : Type) (d : dict V) (k : string) (v : V) :
  getitem d k = inr v <-> get d k = Some v.
Proof.
  unfold getitem. destruct (get d k); split; intros H;
    try discriminate H; now injection H as ->.
Qed.

Lemma ne_str_false (v : json) (s : string) :
  ne_str v s = false <-> v = JStr s.
Proof.
  unfold ne_str. destruct v; split; intros H; try discriminate H.
  - apply negb_false_iff, String.eqb_eq in H. now subst.
  - injection H as ->. now rewrite String.eqb_refl.
Qed.

(** A run that returns without raising has passed every check. *)
Lemma returns_only_accepted (w : World)
    (token region user_pool_id client_id user_agent : string)
    (log : list call) :
  fst (validate_token w token region user_pool_id client_id user_agent log)
  = inr tt ->
  accepts w token region user_pool_id client_id user_agent.
Proof.
  unfold validate_token, bind, extern, lift, raise, ret.
  repeat run_step; intros H; try discriminate H.
  match goal with
  | V : verify _ _ _ _ = inr ?b, N : negb ?b = false |- _ =>
      destruct b; [| discriminate N]
  end.
  repeat match goal with
         | G : getitem _ _ = inr _ |- _ => apply getitem_inr in G
         | N : ne_str _ _ = false |- _ => apply ne_str_false in N
         | U : negb (String.eqb _ _) = false |- _ =>
             apply negb_false_iff, String.eqb_eq in U
         end.
  subst. unfold accepts. eexists. eexists. eexists.
  split; [eapply Reaches_verify; eauto using rsplit_dot_two |].
  repeat split; eauto.
Qed.

(** X11: [validate_token] returns without raising exactly when nothing
    is left to object to: the run reaches the signature check and the
    signature verifies, the claims carry an [exp] that the clock has not
    passed, their [aud] is the client id, and the user agent is
    [cognito-authorizer]. *)
Theorem validate_token_accepts_iff (w : World)
    (token region user_pool_id client_id user_agent : string)
    (log : list call) :
  fst (validate_token w token region user_pool_id client_id user_agent log)
  = inr tt
  <-> accepts w token region user_pool_id client_id user_agent.
Proof.
  split; [apply returns_only_accepted |].
  intros [calls [claims [exp [Hr [Hc [He [Hf [Ha Hu]]]]]]]].
  rewrite (validate_token_reaches Hr).
  unfold claim_checks, bind, extern, lift, getitem.
  rewrite Hc, He. cbv iota beta. rewrite Hf. cbv iota beta.
  rewrite Ha. cbv iota beta.
  rewrite (proj2 (ne_str_false (JStr client_id) client_id) eq_refl).
  subst user_agent. reflexivity.
Qed.

(** X12: below the expiry the checks come in a fixed order.  A token in
    time whose audience is not the client id is refused for its
    audience whatever the user agent is; the user agent is the reason
    only when the audience is right. *)
Theorem audience_before_user_agent (w : World)
    (token region user_pool_id client_id user_agent : string)
    (log calls : list call) (claims : dict json) (exp aud : json) :
  reaches_verify w token region user_pool_id true calls ->
  get_unverified_claims w token = inr claims ->
  get claims "exp" = Some exp ->
  float_gt (time_time w) exp = inr false ->
  get claims "aud" = Some aud ->
  (aud <> JStr client_id ->
   fst (validate_token w token region user_pool_id client_id user_agent log)
   = inl (InvalidTokenError "Invalid aud(Cognito Client ID)."))
  /\ (aud = JStr client_id ->
      user_agent <> "cognito-authorizer" ->
      fst (validate_token w token region user_pool_id client_id user_agent
             log)
      = inl (InvalidTokenError "Invalid UserAgent.")).
Proof.
  intros Hr Hc He Hf Ha.
  rewrite (validate_token_reaches Hr).
  unfold claim_checks, bind, extern, lift, getitem.
  rewrite Hc, He. cbv iota beta. rewrite Hf. cbv iota beta.
  rewrite Ha. cbv iota beta. split.
  - intros N. destruct (ne_str aud client_id) eqn:E; [reflexivity |].
    apply ne_str_false in E. contradiction.
  - intros -> N.
    rewrite (proj2 (ne_str_false (JStr client_id) client_id) eq_refl).
    apply String.eqb_neq in N. rewrite N. reflexivity.
Qed.

Lemma audience_before_user_agent_witness :
  reaches_verify (sample_world true 2000 1000) "h.p.s" "us-east-1"
    "us-east-1_Pool" true
    [Call_get_unverified_headers "h.p.s";
     Call_requests_get (keys_url "us-east-1" "us-east-1_Pool");
     Call_json_loads "{...}";
     Call_jwk_construct sample_jwk;
     Call_base64url_decode "s";
     Call_verify (KeyOf sample_jwk) "h.p" "s"]
  /\ JStr "client-1" <> JStr "client-2"
  /\ fst (validate_token (sample_world true 2000 1000) "h.p.s" "us-east-1"
            "us-east-1_Pool" "client-2" "curl" [])
     = inl (InvalidTokenError "Invalid aud(Cognito Client ID).").
Proof.
  split; [apply sample_reaches |]. split; [discriminate |].
  apply (proj1 (@audience_before_user_agent (sample_world true 2000 1000)
                  "h.p.s" "us-east-1" "us-east-1_Pool" "client-2" "curl" []
                  _ (sample_claims 2000) (JNum 2000) (JStr "client-1")
                  (sample_reaches true 2000 1000) eq_refl eq_refl eq_refl
                  eq_refl)).
  discriminate.
Defined.

Lemma world_without_exp_reaches :
  reaches_verify world_without_exp "h.p.s" "us-east-1" "us-east-1_Pool" true
    [Call_get_unverified_headers "h.p.s";
     Call_requests_get (keys_url "us-east-1" "us-east-1_Pool");
     Call_json_loads "{...}";
     Call_jwk_construct sample_jwk;
     Call_base64url_decode "s";
     Call_verify (KeyOf sample_jwk) "h.p" "s"].
Proof.
  eapply (@Reaches_verify world_without_exp "h.p.s" "us-east-1"
            "us-east-1_Pool" sample_headers "{...}"
            (JObj [("keys", JArr [other_jwk; sample_jwk])])
            (JArr [other_jwk; sample_jwk]) [other_jwk; sample_jwk]
            sample_jwk (KeyOf sample_jwk) "h.p" "s" "s" true);
    reflexivity.
Qed.

(** X13: a verified token whose claims have no [exp] is not refused as
    an invalid token: the lookup raises [KeyError], after the claims
    and the clock were read, and the handler, which catches
    [InvalidTokenError] only, raises it too and answers with no
    policy. *)
Theorem missing_exp_raises_KeyError (type_attr : string -> bool) (w : World)
    (environ : dict string) (event : dict (dict string))
    (region user_pool_id client_id account_id api_id stage token
       user_agent : string) (log calls : list call) (claims : dict json) :
  request environ event region user_pool_id client_id account_id api_id
          stage token user_agent ->
  reaches_verify w token region user_pool_id true calls ->
  get_unverified_claims w token = inr claims ->
  get claims "exp" = None ->
  validate_token w token region user_pool_id client_id user_agent log
  = (inl (KeyError "exp"),
     log ++ calls ++ [Call_get_unverified_claims token; Call_time])
  /\ lambda_handler type_attr w environ event log
     = (inl (KeyError "exp"),
        log ++ calls ++ [Call_get_unverified_claims token; Call_time]).
Proof.
  intros Hreq Hr Hc He.
  assert (validate_token w token region user_pool_id client_id user_agent log
          = (inl (KeyError "exp"),
             log ++ calls ++ [Call_get_unverified_claims token; Call_time]))
    as V.
  { rewrite (validate_token_reaches Hr).
    unfold claim_checks, bind, extern, lift, getitem.
    rewrite Hc, He. cbv iota beta.
    now repeat rewrite <- app_assoc. }
  split; [exact V |].
  now rewrite (lambda_handler_spec type_attr w log Hreq), V.
Qed.

Lemma missing_exp_raises_KeyError_witness :
  request sample_environ (sample_event "h.p.s") "us-east-1" "us-east-1_Pool"
    "client-1" "111122223333" "abcd123" "prod" "h.p.s" "cognito-authorizer"
  /\ get_unverified_claims world_without_exp "h.p.s"
     = inr [("aud", JStr "client-1")]
  /\ get [("aud", JStr "client-1")] "exp" = None
  /\ fst (lambda_handler sample_type_attr world_without_exp sample_environ
            (sample_event "h.p.s") [])
     = inl (KeyError "exp").
Proof.
  split; [apply sample_request |].
  split; [reflexivity |]. split; [reflexivity |].
  rewrite (proj2 (@missing_exp_raises_KeyError sample_type_attr
                    world_without_exp sample_environ (sample_event "h.p.s")
                    "us-east-1" "us-east-1_Pool" "client-1" "111122223333"
                    "abcd123" "prod" "h.p.s" "cognito-authorizer" [] _
                    [("aud", JStr "client-1")] (sample_request "h.p.s")
                    world_without_exp_reaches eq_refl eq_refl)).
  reflexivity.
Defined.

(** X14: a request without the [Authorization] header is not denied:
    the lookup raises [KeyError] inside the [try], which catches
    [InvalidTokenError] only, so the handler raises it, before any call
    to the outside and without a policy. *)
Theorem missing_token_raises_KeyError (type_attr : string -> bool)
    (w : World) (environ : dict string) (event : dict (dict string))
    (region user_pool_id client_id account_id api_id stage : string)
    (headers : dict string) (log : list call) :
  request_context environ event region user_pool_id client_id account_id
                  api_id stage ->
  get event "headers" = Some headers ->
  get headers "Authorization" = None ->
  lambda_handler type_attr w environ event log
  = (inl (KeyError "Authorization"), log).
Proof.
  intros [requestContext H1 H2 H3 H4 H5 H6 H7] Hh Ha.
  unfold lambda_handler, bind, lift, getitem.
  rewrite H1, H2, H3, H4, H5, H6, H7.
  unfold with_policy, try_except_InvalidTokenError, bind, lift, getitem.
  now rewrite Hh, Ha.
Qed.

Lemma missing_token_raises_KeyError_witness :
  request_context sample_environ event_without_token "us-east-1"
    "us-east-1_Pool" "client-1" "111122223333" "abcd123" "prod"
  /\ get event_without_token "headers"
     = Some [("User-Agent", "cognito-authorizer")]
  /\ get [("User-Agent", "cognito-authorizer")] "Authorization" = None
  /\ lambda_handler sample_type_attr (sample_world true 2000 1000)
       sample_environ event_without_token []
     = (inl (KeyError "Authorization"), []).
Proof.
  assert (request_context sample_environ event_without_token "us-east-1"
            "us-east-1_Pool" "client-1" "111122223333" "abcd123" "prod")
    as Hc.
  { eapply (@Request_context sample_environ event_without_token "us-east-1"
              "us-east-1_Pool" "client-1" "111122223333" "abcd123" "prod"
              [("accountId", "111122223333"); ("apiId", "abcd123");
               ("stage", "prod")]); reflexivity. }
  split; [exact Hc |]. split; [reflexivity |]. split; [reflexivity |].
  apply (@missing_token_raises_KeyError sample_type_attr
           (sample_world true 2000 1000) sample_environ event_without_token
           "us-east-1" "us-east-1_Pool" "client-1" "111122223333" "abcd123"
           "prod" [("User-Agent", "cognito-authorizer")] [] Hc);
    reflexivity.
Defined.

(** X15: whenever the handler answers with a document, the request held
    all it reads and the document is one of two: the allow-all document,
    and then the token passed every check of [validate_token], or the
    deny-all document with one of the five reasons under [context].  No
    request obtains an Allow without a verified signature, a running
    expiry, the right audience and the expected user agent. *)
Theorem handler_allows_only_accepted (type_attr : string -> bool)
    (w : World) (environ : dict string) (event : dict (dict string))
    (log log' : list call) (r : response) :
  lambda_handler type_attr w environ event log = (inr r, log') ->
  exists region user_pool_id client_id account_id api_id stage token
         user_agent : string,
    request environ event region user_pool_id client_id account_id api_id
            stage token user_agent
    /\ ((r = all_methods_response "Allow" region account_id api_id stage
         /\ accepts w token region user_pool_id client_id user_agent)
        \/ (exists msg : string,
              In msg reasons
              /\ r = set_context
                       (all_methods_response "Deny" region account_id api_id
                          stage)
                       (InvalidTokenError msg))).
Proof.
  unfold lambda_handler, bind, lift, getitem.
  destruct (get environ "AWS_DEFAULT_REGION") as [region |] eqn:H1;
    [| discriminate].
  destruct (get environ "USER_POOL_ID") as [user_pool_id |] eqn:H2;
    [| discriminate].
  destruct (get environ "CLIENT_ID") as [client_id |] eqn:H3;
    [| discriminate].
  destruct (get event "requestContext") as [requestContext |] eqn:H4;
    [| discriminate].
  destruct (get requestContext "accountId") as [account_id |] eqn:H5;
    [| discriminate].
  destruct (get requestContext "apiId") as [api_id |] eqn:H6;
    [| discriminate].
  destruct (get requestContext "stage") as [stage |] eqn:H7;
    [| discriminate].
  unfold with_policy, try_except_InvalidTokenError, bind, lift, getitem.
  destruct (get event "headers") as [headers |] eqn:H8; [| discriminate].
  destruct (get headers "Authorization") as [token |] eqn:H9;
    [| discriminate].
  destruct (get headers "User-Agent") as [user_agent |] eqn:H10;
    [| discriminate].
  unfold in_world. cbn [fst snd].
  destruct (validate_token w token region user_pool_id client_id user_agent
              log) as [[e | []] l] eqn:V.
  - destruct e; try discriminate. cbn. intros H. injection H as <- <-.
    exists region, user_pool_id, client_id, account_id, api_id, stage, token,
      user_agent.
    split; [now apply Request with (requestContext := requestContext)
                                  (headers := headers) |].
    right. exists msg. split; [| reflexivity].
    apply (@invalid_token_reasons w token region user_pool_id client_id
             user_agent msg log).
    now rewrite V.
  - cbn. intros H. injection H as <- <-.
    exists region, user_pool_id, client_id, account_id, api_id, stage, token,
      user_agent.
    split; [now apply Request with (requestContext := requestContext)
                                  (headers := headers) |].
    left. split; [reflexivity |].
    apply (@returns_only_accepted w token region user_pool_id client_id
             user_agent log).
    now rewrite V.
Qed.

Lemma handler_allows_only_accepted_witness :
  exists (r : response) (log' : list call),
    lambda_handler sample_type_attr (sample_world true 2000 1000)
      sample_environ (sample_event "h.p.s") [] = (inr r, log')
    /\ exists region user_pool_id client_id account_id api_id stage token
              user_agent : string,
         request sample_environ (sample_event "h.p.s") region user_pool_id
           client_id account_id api_id stage token user_agent
         /\ ((r = all_methods_response "Allow" region account_id api_id stage
              /\ accepts (sample_world true 2000 1000) token region
                   user_pool_id client_id user_agent)
             \/ (exists msg : string,
                   In msg reasons
                   /\ r = set_context
                            (all_methods_response "Deny" region account_id
                               api_id stage)
                            (InvalidTokenError msg))).
Proof.
  exists (all_methods_response "Allow" "us-east-1" "111122223333" "abcd123"
            "prod"),
    (snd (lambda_handler sample_type_attr (sample_world true 2000 1000)
            sample_environ (sample_event "h.p.s") [])).
  split; [reflexivity |].
  apply (@handler_allows_only_accepted sample_type_attr
           (sample_world true 2000 1000) sample_environ
           (sample_event "h.p.s") []
           (snd (lambda_handler sample_type_attr (sample_world true 2000 1000)
                   sample_environ (sample_event "h.p.s") []))).
  reflexivity.
Defined.

(** X16: a run of [validate_token] does not retry.  It starts by
    decoding the header of the token, makes at most eight calls to the
    outside, and fetches the key set at most once, from the URL of the
    user pool and no other. *)
Theorem key_set_fetched_once (w : World)
    (token region user_pool_id client_id user_agent : string)
    (log : list call) :
  exists rest : list call,
    snd (validate_token w token region user_pool_id client_id user_agent log)
    = log ++ Call_get_unverified_headers token :: rest
    /\ (length rest <= 7)%nat
    /\ (length (filter is_requests_get rest) <= 1)%nat
    /\ (forall url : string,
          In (Call_requests_get url) rest ->
          url = keys_url region user_pool_id).
Proof.
  unfold validate_token, bind, extern, lift, raise, ret.
  repeat run_step.
  all: eexists; split;
    [ repeat rewrite <- app_assoc; reflexivity | ].
  all: simpl; repeat split; try lia.
  all: intros url H;
    repeat match goal with
           | H : _ \/ _ |- _ => destruct H as [H | H]
           end;
    try contradiction; try discriminate H; now injection H.
Qed.

(** X17: a token whose header has no [kid] is not refused as an invalid
    token when the key set holds a key: the comparison of the first key
    raises [KeyError], before any key is constructed. *)
Theorem missing_kid_raises_KeyError (w : World)
    (token region user_pool_id client_id user_agent text : string)
    (headers : dict json) (loaded keys key kid : json) (others : list json)
    (log : list call) :
  get_unverified_headers w token = inr headers ->
  requests_get w (keys_url region user_pool_id) = inr text ->
  json_loads w text = inr loaded ->
  subscript loaded "keys" = inr keys ->
  iterate keys = inr (key :: others) ->
  subscript key "kid" = inr kid ->
  get headers "kid" = None ->
  validate_token w token region user_pool_id client_id user_agent log
  = (inl (KeyError "kid"),
     log ++ [Call_get_unverified_headers token;
             Call_requests_get (keys_url region user_pool_id);
             Call_json_loads text]).
Proof.
  intros Hh Hg Hl Hk Hi Hs Hn.
  unfold validate_token, bind, extern, lift.
  rewrite Hh, Hg, Hl, Hk, Hi. simpl find_key.
  rewrite Hs. unfold getitem. rewrite Hn.
  now repeat rewrite <- app_assoc.
Qed.

Lemma missing_kid_raises_KeyError_witness :
  validate_token
    {| get_unverified_headers := fun _ => inr [("alg", JStr "RS256")];
       requests_get := fun _ => inr "{...}";
       json_loads := fun _ => inr (JObj [("keys", JArr [sample_jwk])]);
       jwk_construct := fun key => inr (KeyOf key);
       base64url_decode := fun data => inr data;
       verify := fun _ _ _ => inr true;
       get_unverified_claims := fun _ => inr (sample_claims 2000);
       time_time := 1000 |}
    "h.p.s" "us-east-1" "us-east-1_Pool" "client-1" "cognito-authorizer" []
  = (inl (KeyError "kid"),
     [Call_get_unverified_headers "h.p.s";
      Call_requests_get (keys_url "us-east-1" "us-east-1_Pool");
      Call_json_loads "{...}"]).
Proof.
  apply (@missing_kid_raises_KeyError _ "h.p.s" "us-east-1" "us-east-1_Pool"
           "client-1" "cognito-authorizer" "{...}" [("alg", JStr "RS256")]
           (JObj [("keys", JArr [sample_jwk])]) (JArr [sample_jwk])
           sample_jwk (JStr "key-1") [] []); reflexivity.
Defined.

Lemma lower_char_idempotent (c : ascii) :
  lower_char (lower_char c) = lower_char c.
Proof.
  destruct c as [[] [] [] [] [] [] [] []]; reflexivity.
Qed.

Lemma lower_idempotent (s : string) : lower (lower s) = lower s.
Proof.
  unfold lower. induction s as [| c rest IH]; [reflexivity |].
  cbn [map_string]. now rewrite lower_char_idempotent, IH.
Qed.

(** X18: the effect of a grant is read without regard to the case of
    its ASCII letters: [_addMethod] does with an effect what it does
    with the same effect in lower case. *)
Theorem addMethod_effect_case (type_attr : string -> bool)
    (self : AuthPolicy.t) (effect verb path : string) (conds : conditions) :
  AuthPolicy._addMethod type_attr self effect verb path conds
  = AuthPolicy._addMethod type_attr self (lower effect) verb path conds.
Proof.
  unfold AuthPolicy._addMethod. now rewrite lower_idempotent.
Qed.
